(** * Loom: requirement store, implementation links and test specifications

    A shallow embedding of [src/store.py] and [src/testspec.py].

    Conventions of the embedding.
    - A Python [str] that the program stores, compares or uses as a key
      is a [string]; each character is one code point below 256. The text
      of a link, which the program writes with [json.dumps] and reads
      back with [json.loads], is a [Unicode.str]: a list of Unicode
      scalar values. A [string] is read as such a text character by
      character.
    - A ChromaDB collection is a finite map from record id to an entry
      holding the embedding vector, the metadata record and the document.
      [upsert] replaces the whole entry, [get] is a lookup, [get()] without
      ids lists the map, [query] ranks the entries by distance and
      refuses a number of results that is not positive.
    - Embedding vectors and distances belong to the vector engine: their
      types, the distance and its comparison are parameters.
    - The clock is an input: [supersede_requirement] takes the text
      [datetime.now(timezone.utc).isoformat()] produced as an argument.
    - An operation that can raise returns in [Exc]. A stored [satisfies]
      text that is not the JSON of a list of links is outside the
      embedding: reading it has the outcome [Outside]. *)

From Stdlib Require Import Ascii String NArith Sorted.
From stdpp Require Import gmap strings list fin_maps sets.

Open Scope string_scope.

(** ** Python exceptions *)

Inductive PyExn : Set :=
| IndexError
| TypeError.

(** The outcome of a call: a value, an exception, or [Outside] when the
    call is handed a text the embedding does not read. Nothing is stated
    about the program after [Outside]. *)
Inductive Exc (A : Type) : Type :=
| Return (a : A)
| Raise (e : PyExn)
| Outside.
Arguments Return {A} a.
Arguments Raise {A} e.
Arguments Outside {A}.

Definition exc_bind {A B} (m : Exc A) (k : A → Exc B) : Exc B :=
  match m with
  | Return a => k a
  | Raise e => Raise e
  | Outside => Outside
  end.

Notation "x ←! m ; k" := (exc_bind m (λ x, k))
  (at level 20, m at level 100, k at level 200, right associativity,
   format "x  ←!  m ;  '/' k").

(** ** The methods of [str] the sources use *)

Module PyStr.

Definition dquote : ascii := "034"%char.
Definition backslash : ascii := "092"%char.
Definition newline : ascii := "010"%char.

Definition code (c : ascii) : N := N_of_ascii c.

(** [str.isspace] on one character: the code points below 256 that
    Python counts as whitespace. *)
Definition isspace (c : ascii) : bool :=
  let n := code c in
  ((9 <=? n) && (n <=? 13) || (28 <=? n) && (n <=? 32)
   || (n =? 133) || (n =? 160))%N.

(** Membership of a character in the argument of [rstrip(chars)]. *)
Fixpoint char_in (c : ascii) (chars : string) : bool :=
  match chars with
  | EmptyString => false
  | String d rest => Ascii.eqb c d || char_in c rest
  end.

Definition is_empty (s : string) : bool :=
  match s with EmptyString => true | String _ _ => false end.

Fixpoint lstrip_by (p : ascii → bool) (s : string) : string :=
  match s with
  | EmptyString => EmptyString
  | String c rest => if p c then lstrip_by p rest else s
  end.

Fixpoint rstrip_by (p : ascii → bool) (s : string) : string :=
  match s with
  | EmptyString => EmptyString
  | String c rest =>
      let r := rstrip_by p rest in
      if is_empty r && p c then EmptyString else String c r
  end.

(** [s.strip()] *)
Definition strip (s : string) : string := lstrip_by isspace (rstrip_by isspace s).

(** [s.rstrip(chars)] *)
Definition rstrip (chars : string) (s : string) : string :=
  rstrip_by (λ c, char_in c chars) s.

(** [s.startswith(p)] *)
Definition startswith (s p : string) : bool := String.prefix p s.

(** [s.split(sep)] for a one-character separator: never empty. *)
Fixpoint split_on (sep : ascii) (s : string) : list string :=
  match s with
  | EmptyString => [EmptyString]
  | String c rest =>
      if Ascii.eqb c sep then EmptyString :: split_on sep rest
      else match split_on sep rest with
           | h :: t => String c h :: t
           | [] => [String c EmptyString]
           end
  end.

(** [s.split()]: the maximal runs of characters that are not whitespace. *)
Fixpoint split (s : string) : list string :=
  match s with
  | EmptyString => []
  | String c rest =>
      if isspace c then split rest
      else match rest with
           | EmptyString => [String c EmptyString]
           | String d _ =>
               if isspace d then String c EmptyString :: split rest
               else match split rest with
                    | t :: ts => String c t :: ts
                    | [] => [String c EmptyString]
                    end
           end
  end.

(** [all(p(c) for c in s)] *)
Fixpoint all_chars (p : ascii → bool) (s : string) : bool :=
  match s with
  | EmptyString => true
  | String c rest => p c && all_chars p rest
  end.

(** [s[-1]], when there is one. *)
Fixpoint last_char (s : string) : option ascii :=
  match s with
  | EmptyString => None
  | String c EmptyString => Some c
  | String _ rest => last_char rest
  end.

(** [sep.join(pieces)] *)
Fixpoint join (sep : string) (pieces : list string) : string :=
  match pieces with
  | [] => EmptyString
  | [piece] => piece
  | piece :: rest => piece +:+ sep +:+ join sep rest
  end.

(** Truth value of an [Optional[str]]: [None] and the empty string are
    false. *)
Definition truthy (o : option string) : bool :=
  match o with
  | None => false
  | Some s => negb (is_empty s)
  end.

(** [o is None] *)
Definition is_none {A} (o : option A) : bool :=
  match o with None => true | Some _ => false end.

End PyStr.

(** ** Unicode text

    The text of a link goes through [json.dumps] and [json.loads], which
    treat it code point by code point. It is a sequence of Unicode scalar
    values: the code points from 0 to 10FFFF outside the surrogate range
    D800-DFFF. A [string] is read as such a text character by
    character. *)

Module Unicode.

Definition is_scalar (n : N) : bool :=
  ((n <? 55296) || (57343 <? n) && (n <? 1114112))%N.

Record char : Set := mk { code : N; code_ok : is_scalar code = true }.

(** [chr(n)], when [n] is a scalar value. *)
Definition of_N (n : N) : option char :=
  match is_scalar n as b return is_scalar n = b → option char with
  | true => λ H, Some (mk n H)
  | false => λ _, None
  end eq_refl.

Definition nul : char := mk 0 eq_refl.

Definition of_ascii (c : ascii) : char := default nul (of_N (N_of_ascii c)).

Definition str : Set := list char.

Fixpoint of_string (s : string) : str :=
  match s with
  | EmptyString => []
  | String c rest => of_ascii c :: of_string rest
  end.

Definition char_eqb (a b : char) : bool := (code a =? code b)%N.

(** [a == b] on two texts *)
Fixpoint eqb (a b : str) : bool :=
  match a, b with
  | [], [] => true
  | x :: a', y :: b' => char_eqb x y && eqb a' b'
  | _, _ => false
  end.

End Unicode.

Coercion Unicode.of_string : string >-> Unicode.str.

(** ** Records of the data model *)

(** One entry of [Implementation.satisfies]: the dict
    [{"req_id": ..., "req_version": ...}]. *)
Module Link.
Record t : Set := mk { req_id : Unicode.str; req_version : Unicode.str }.
End Link.

(** [class Requirement] *)
Module Requirement.
Record t : Set := mk {
  id : string;
  domain : string;
  value : string;
  source_msg_id : string;
  source_session : string;
  timestamp : string;
  superseded_at : option string
}.

(** The assignment [req.superseded_at = v]. *)
Definition set_superseded_at (req : t) (v : option string) : t :=
  mk (id req) (domain req) (value req) (source_msg_id req)
     (source_session req) (timestamp req) v.
End Requirement.

(** [class Implementation] *)
Module Implementation.
Record t : Set := mk {
  id : string;
  file : string;
  lines : string;
  content : string;
  content_hash : string;
  timestamp : string;
  satisfies : list Link.t
}.
End Implementation.

(** [class TestSpec] *)
Module TestSpec.
Record t : Set := mk {
  req_id : string;
  description : string;
  steps : list string;
  expected : string;
  automated : bool;
  test_file : option string;
  last_verified : option string;
  private : bool
}.
End TestSpec.

(** ** [json.dumps] and [json.loads] on a [satisfies] list

    [dumps] is the encoder with its defaults: [ensure_ascii=True], so
    that every character outside the printable ASCII range is written as
    an escape, a character above FFFF as a surrogate pair, and the
    separators [", "] and [": "]. [loads] is the strict decoder, read on
    the documents the store writes: a JSON array of objects with the two
    string members [req_id] and [req_version], in either order. Any other
    text is [Outside]: it may be other JSON, which [json.loads] decodes
    to a value that is not a list of links, or no JSON at all. *)

Module Json.
Import PyStr.

Definition hex_digit (n : N) : ascii :=
  if (n <? 10)%N then ascii_of_N (48 + n) else ascii_of_N (87 + n).

Definition hex_value (c : ascii) : option N :=
  let n := code c in
  if ((48 <=? n) && (n <=? 57))%N then Some (n - 48)%N
  else if ((97 <=? n) && (n <=? 102))%N then Some (n - 87)%N
  else if ((65 <=? n) && (n <=? 70))%N then Some (n - 55)%N
  else None.

(** ['{0:04x}'.format(n)]: the four hexadecimal digits of a number
    below 65536. *)
Definition hex4 (n : N) : string :=
  String (hex_digit (n / 4096)) (String (hex_digit (n / 256 mod 16))
    (String (hex_digit (n / 16 mod 16)) (String (hex_digit (n mod 16)) EmptyString))).

(** ['\\u{0:04x}'.format(n)] *)
Definition escape_u (n : N) : string := String backslash (String "u" (hex4 n)).

(** The replacement [encode_basestring_ascii] makes for one character. *)
Definition escape_char (c : Unicode.char) : string :=
  let n := Unicode.code c in
  if (n =? 34)%N then String backslash (String dquote EmptyString)
  else if (n =? 92)%N then String backslash (String backslash EmptyString)
  else if (n =? 10)%N then String backslash "n"
  else if (n =? 13)%N then String backslash "r"
  else if (n =? 9)%N then String backslash "t"
  else if (n =? 8)%N then String backslash "b"
  else if (n =? 12)%N then String backslash "f"
  else if ((32 <=? n) && (n <=? 126))%N then String (ascii_of_N n) EmptyString
  else if (n <? 65536)%N then escape_u n
  else
    let n := (n - 65536)%N in
    let s1 := N.lor 55296 (N.land (N.shiftr n 10) 1023) in
    let s2 := N.lor 56320 (N.land n 1023) in
    escape_u s1 +:+ escape_u s2.

Fixpoint escape (s : Unicode.str) : string :=
  match s with
  | [] => EmptyString
  | c :: rest => escape_char c +:+ escape rest
  end.

Definition encode_string (s : Unicode.str) : string :=
  String dquote (escape s +:+ String dquote EmptyString).

Definition encode_link (l : Link.t) : string :=
  "{" +:+ encode_string "req_id" +:+ ": " +:+ encode_string (Link.req_id l)
  +:+ ", " +:+ encode_string "req_version" +:+ ": "
  +:+ encode_string (Link.req_version l) +:+ "}".

Fixpoint encode_links (ls : list Link.t) : string :=
  match ls with
  | [] => EmptyString
  | [l] => encode_link l
  | l :: rest => encode_link l +:+ ", " +:+ encode_links rest
  end.

(** [json.dumps(satisfies)] *)
Definition dumps (ls : list Link.t) : string := "[" +:+ encode_links ls +:+ "]".

(** The [BACKSLASH] table of the decoder. *)
Definition unescape (e : ascii) : option Unicode.char :=
  let n := code e in
  if (n =? 34)%N then Unicode.of_N 34
  else if (n =? 92)%N then Unicode.of_N 92
  else if (n =? 47)%N then Unicode.of_N 47
  else if (n =? 98)%N then Unicode.of_N 8
  else if (n =? 102)%N then Unicode.of_N 12
  else if (n =? 110)%N then Unicode.of_N 10
  else if (n =? 114)%N then Unicode.of_N 13
  else if (n =? 116)%N then Unicode.of_N 9
  else None.

(** [_decode_uXXXX]: the number the four hexadecimal digits after a
    backslash and [u] write. *)
Definition decode_uXXXX (h1 h2 h3 h4 : ascii) : option N :=
  a ← hex_value h1; b ← hex_value h2; c ← hex_value h3; d ← hex_value h4;
  Some (((a * 16 + b) * 16 + c) * 16 + d)%N.

(** [scanstring] from just after the opening quote: the decoded text and
    what follows the closing quote. A high surrogate followed by the
    escape of a low one is joined with it into one character; a
    surrogate that stays alone is no scalar value, and the text is then
    not read. *)
Fixpoint scanstring (s : string) : option (Unicode.str * string) :=
  match s with
  | EmptyString => None
  | String c s1 =>
      if Ascii.eqb c dquote then Some ([], s1)
      else if Ascii.eqb c backslash then
        match s1 with
        | EmptyString => None
        | String e s2 =>
            if Ascii.eqb e "u" then
              match s2 with
              | String h1 (String h2 (String h3 (String h4 s3))) =>
                  uni ← decode_uXXXX h1 h2 h3 h4;
                  if ((55296 <=? uni) && (uni <=? 56319))%N then
                    match s3 with
                    | String b (String u
                        (String l1 (String l2 (String l3 (String l4 s4))))) =>
                        if Ascii.eqb b backslash && Ascii.eqb u "u" then
                          uni2 ← decode_uXXXX l1 l2 l3 l4;
                          if ((56320 <=? uni2) && (uni2 <=? 57343))%N then
                            ch ← Unicode.of_N
                                   (65536 + N.lor (N.shiftl (uni - 55296) 10)
                                                  (uni2 - 56320))%N;
                            '(body, rest) ← scanstring s4;
                            Some (ch :: body, rest)
                          else None
                        else None
                    | _ => None
                    end
                  else
                    ch ← Unicode.of_N uni;
                    '(body, rest) ← scanstring s3;
                    Some (ch :: body, rest)
              | _ => None
              end
            else
              ch ← unescape e;
              '(body, rest) ← scanstring s2;
              Some (ch :: body, rest)
        end
      else if (code c <? 32)%N then None
      else '(body, rest) ← scanstring s1; Some (Unicode.of_ascii c :: body, rest)
  end.

(** JSON whitespace: space, tab, line feed, carriage return. *)
Definition is_ws (c : ascii) : bool :=
  let n := code c in ((n =? 32) || (n =? 9) || (n =? 10) || (n =? 13))%N.

Definition skip_ws (s : string) : string := lstrip_by is_ws s.

Definition expect (c : ascii) (s : string) : option string :=
  match skip_ws s with
  | String d rest => if Ascii.eqb c d then Some rest else None
  | EmptyString => None
  end.

Definition parse_string (s : string) : option (Unicode.str * string) :=
  rest ← expect dquote s; scanstring rest.

Definition parse_member (s : string) : option (Unicode.str * Unicode.str * string) :=
  '(k, s1) ← parse_string s;
  s2 ← expect ":" s1;
  '(v, s3) ← parse_string s2;
  Some (k, v, s3).

(** An object that is a link: the members [req_id] and [req_version],
    once each. *)
Definition parse_link (s : string) : option (Link.t * string) :=
  s1 ← expect "{" s;
  '(k1, v1, s2) ← parse_member s1;
  s3 ← expect "," s2;
  '(k2, v2, s4) ← parse_member s3;
  s5 ← expect "}" s4;
  if Unicode.eqb k1 "req_id" && Unicode.eqb k2 "req_version"
  then Some (Link.mk v1 v2, s5)
  else if Unicode.eqb k1 "req_version" && Unicode.eqb k2 "req_id"
  then Some (Link.mk v2 v1, s5)
  else None.

(** The elements of a non-empty array up to its closing bracket. Every
    element consumes input, so the length of the text is fuel enough. *)
Fixpoint parse_links (fuel : nat) (s : string) : option (list Link.t * string) :=
  match fuel with
  | O => None
  | S fuel' =>
      '(l, s1) ← parse_link s;
      match skip_ws s1 with
      | String c rest =>
          if Ascii.eqb c "," then
            '(ls, s2) ← parse_links fuel' rest; Some (l :: ls, s2)
          else if Ascii.eqb c "]" then Some ([l], rest)
          else None
      | EmptyString => None
      end
  end.

Definition parse_array (s : string) : option (list Link.t * string) :=
  s1 ← expect "[" s;
  match skip_ws s1 with
  | String c rest =>
      if Ascii.eqb c "]" then Some ([], rest)
      else parse_links (String.length s1) s1
  | EmptyString => None
  end.

(** [json.loads(text)], for a text that is the JSON of a list of links. *)
Definition loads (text : string) : Exc (list Link.t) :=
  match parse_array text with
  | Some (ls, rest) => if is_empty (skip_ws rest) then Return ls else Outside
  | None => Outside
  end.

End Json.

(** ** The vector collections

    What the ChromaDB client offers, as far as the sources use it. *)

(** An entry of a collection. The metadata of a requirement is the dict
    [req.to_dict()], which [Requirement.from_dict] reads back field by
    field: the record itself. *)
Record Entry (Embedding M : Type) : Type := mkEntry {
  embedding : Embedding;
  metadata : M;
  document : string
}.
Arguments mkEntry {Embedding M} _ _ _.
Arguments embedding {Embedding M} _.
Arguments metadata {Embedding M} _.
Arguments document {Embedding M} _.

Module Chroma.
Section Collection.
Context {Embedding Distance M : Type}.
Context (distance : Embedding → Embedding → Distance).
Context (dist_leb : Distance → Distance → bool).

(** [collection.upsert(ids=[id], embeddings=[e], metadatas=[m], documents=[d])] *)
Definition upsert (c : gmap string (Entry Embedding M))
    (id : string) (e : Embedding) (m : M) (d : string) : gmap string (Entry Embedding M) :=
  <[id := mkEntry e m d]> c.

(** [collection.get(ids=ids, ...)]: the entries found, in the order asked. *)
Definition get (c : gmap string (Entry Embedding M)) (ids : list string)
    : list (string * Entry Embedding M) :=
  omap (λ i, (λ e, (i, e)) <$> c !! i) ids.

(** [collection.get(...)] without ids: every entry. *)
Definition get_all (c : gmap string (Entry Embedding M))
    : list (string * Entry Embedding M) :=
  map_to_list c.

(** Insertion into a list ranked by ascending distance, before the first
    entry that is not closer. *)
Fixpoint rank_insert (x : string * Entry Embedding M * Distance)
    (l : list (string * Entry Embedding M * Distance))
    : list (string * Entry Embedding M * Distance) :=
  match l with
  | [] => [x]
  | y :: l' => if dist_leb x.2 y.2 then x :: y :: l' else y :: rank_insert x l'
  end.

Definition rank (l : list (string * Entry Embedding M * Distance))
    : list (string * Entry Embedding M * Distance) :=
  foldr rank_insert [] l.

(** The [n] entries nearest to [q] with their distances, nearest first. *)
Definition nearest (c : gmap string (Entry Embedding M)) (q : Embedding) (n : nat)
    : list (string * Entry Embedding M * Distance) :=
  take n (rank ((λ ie, (ie.1, ie.2, distance q (embedding ie.2))) <$> map_to_list c)).

(** [collection.query(query_embeddings=[q], n_results=n, ...)]: the
    client refuses a number of results that is not positive with
    [TypeError]; [n] is a natural number here, so that is [n = 0]. *)
Definition query (c : gmap string (Entry Embedding M)) (q : Embedding) (n : nat)
    : Exc (list (string * Entry Embedding M * Distance)) :=
  if Nat.eqb n 0 then Raise TypeError else Return (nearest c q n).

(** [collection.count()] *)
Definition count (c : gmap string (Entry Embedding M)) : nat := size c.
End Collection.
End Chroma.

(** The metadata dict of a stored implementation,
    [{**impl.to_dict(), "satisfies": json.dumps(impl.satisfies)}]. *)
Module ImplMeta.
Record t : Set := mk {
  id : string;
  file : string;
  lines : string;
  content : string;
  content_hash : string;
  timestamp : string;
  satisfies : string
}.

Definition of_impl (impl : Implementation.t) : t :=
  mk (Implementation.id impl) (Implementation.file impl) (Implementation.lines impl)
     (Implementation.content impl) (Implementation.content_hash impl)
     (Implementation.timestamp impl) (Json.dumps (Implementation.satisfies impl)).

(** [meta["satisfies"] = links; Implementation.from_dict(meta)] *)
Definition to_impl (meta : t) (links : list Link.t) : Implementation.t :=
  Implementation.mk (id meta) (file meta) (lines meta) (content meta)
     (content_hash meta) (timestamp meta) links.
End ImplMeta.

(** The metadata dict of a chat message. *)
Module ChatMeta.
Record t : Set := mk { session : string; role : string; timestamp : string }.
End ChatMeta.

(** [class LoomStore]: the three collections. *)
Record LoomStore (Embedding : Type) : Type := mkStore {
  requirements : gmap string (Entry Embedding Requirement.t);
  implementations : gmap string (Entry Embedding ImplMeta.t);
  chat_messages : gmap string (Entry Embedding ChatMeta.t)
}.
Arguments mkStore {Embedding} _ _ _.
Arguments requirements {Embedding} _.
Arguments implementations {Embedding} _.
Arguments chat_messages {Embedding} _.

(** One result of [search_requirements]: the dict with the keys [id],
    [requirement] and [distance]. *)
Record RequirementHit (Distance : Type) : Type := mkRequirementHit {
  hit_id : string;
  hit_requirement : Requirement.t;
  hit_distance : option Distance
}.
Arguments mkRequirementHit {Distance} _ _ _.
Arguments hit_id {Distance} _.
Arguments hit_requirement {Distance} _.
Arguments hit_distance {Distance} _.

(** One result of [search_implementations]. *)
Record ImplementationHit (Distance : Type) : Type := mkImplementationHit {
  impl_hit_id : string;
  impl_hit_implementation : Implementation.t;
  impl_hit_distance : option Distance
}.
Arguments mkImplementationHit {Distance} _ _ _.

(** One result of [search_chat]. *)
Record ChatHit (Distance : Type) : Type := mkChatHit {
  chat_hit_id : string;
  chat_hit_content : string;
  chat_hit_metadata : ChatMeta.t;
  chat_hit_distance : option Distance
}.
Arguments mkChatHit {Distance} _ _ _ _.

(** ** [LoomStore]: the operations of [src/store.py] *)

Section Store.
Context {Embedding Distance : Type}.
Context (distance : Embedding → Embedding → Distance).
Context (dist_leb : Distance → Distance → bool).

Implicit Types (s : LoomStore Embedding) (req : Requirement.t)
  (impl : Implementation.t) (req_id impl_id now : string).

(** A store whose collections were just created. *)
Definition empty_store : LoomStore Embedding := mkStore ∅ ∅ ∅.

(** *** Requirements *)

Definition add_requirement s req (e : Embedding) : LoomStore Embedding :=
  mkStore
    (Chroma.upsert (requirements s) (Requirement.id req) e req (Requirement.value req))
    (implementations s) (chat_messages s).

Definition get_requirement s req_id : option Requirement.t :=
  match Chroma.get (requirements s) [req_id] with
  | (_, entry) :: _ => Some (metadata entry)
  | [] => None
  end.

Definition get_current_requirement s req_id : option Requirement.t :=
  match Chroma.get (requirements s) [req_id] with
  | (_, entry) :: _ =>
      let req := metadata entry in
      if PyStr.is_none (Requirement.superseded_at req) then Some req else None
  | [] => None
  end.

(** [now] is the value of [datetime.now(timezone.utc).isoformat()]. The
    guard [req and not req.superseded_at] lets through a record whose
    [superseded_at] is [None] or the empty string. *)
Definition supersede_requirement s req_id now : LoomStore Embedding :=
  match get_requirement s req_id with
  | Some req =>
      if negb (PyStr.truthy (Requirement.superseded_at req)) then
        let req' := Requirement.set_superseded_at req (Some now) in
        match Chroma.get (requirements s) [req_id] with
        | (_, entry) :: _ => add_requirement s req' (embedding entry)
        | [] => s
        end
      else s
  | None => s
  end.

Definition search_requirements s (query_embedding : Embedding) (n : nat)
    : Exc (list (RequirementHit Distance)) :=
  results ←! Chroma.query distance dist_leb (requirements s) query_embedding n;
  Return ((λ r, mkRequirementHit r.1.1 (metadata r.1.2) (Some r.2)) <$> results).

Definition list_requirements s (include_superseded : bool) : list Requirement.t :=
  let reqs := (λ ie, metadata ie.2) <$> Chroma.get_all (requirements s) in
  if negb include_superseded
  then filter (λ r, Requirement.superseded_at r = None) reqs
  else reqs.

(** The suggestions of auto-detect as [tests/test_store.py] composes
    them in [test_search_active_excludes_superseded]: search, then keep
    the results whose requirement has [superseded_at is None]. *)
Definition search_requirements_active s (query_embedding : Embedding) (n : nat)
    : Exc (list (RequirementHit Distance)) :=
  results ←! search_requirements s query_embedding n;
  Return (filter (λ r, Requirement.superseded_at (hit_requirement r) = None) results).

(** *** Implementations *)

Definition add_implementation s impl (e : Embedding) : LoomStore Embedding :=
  mkStore (requirements s)
    (Chroma.upsert (implementations s) (Implementation.id impl) e
       (ImplMeta.of_impl impl) (Implementation.content impl))
    (chat_messages s).

(** The dict a read returns is a copy: decoding [satisfies] in it leaves
    the stored entry as it was. *)
Definition decode_impl (meta : ImplMeta.t) : Exc Implementation.t :=
  links ←! Json.loads (ImplMeta.satisfies meta);
  Return (ImplMeta.to_impl meta links).

Definition get_implementation s impl_id : Exc (option Implementation.t) :=
  match Chroma.get (implementations s) [impl_id] with
  | (_, entry) :: _ => impl ←! decode_impl (metadata entry); Return (Some impl)
  | [] => Return None
  end.

Fixpoint search_implementations_loop
    (results : list (string * Entry Embedding ImplMeta.t * Distance))
    (impls : list (ImplementationHit Distance)) : Exc (list (ImplementationHit Distance)) :=
  match results with
  | [] => Return impls
  | r :: rest =>
      impl ←! decode_impl (metadata r.1.2);
      search_implementations_loop rest
        (impls ++ [mkImplementationHit r.1.1 impl (Some r.2)])
  end.

Definition search_implementations s (query_embedding : Embedding) (n : nat)
    : Exc (list (ImplementationHit Distance)) :=
  results ←! Chroma.query distance dist_leb (implementations s) query_embedding n;
  search_implementations_loop results [].

(** [any(s["req_id"] == req_id for s in impl.satisfies)] *)
Definition satisfies_requirement impl (req_id : Unicode.str) : bool :=
  existsb (λ l, Unicode.eqb (Link.req_id l) req_id) (Implementation.satisfies impl).

(** The scan of [get_implementations_for_requirement] over the metadata
    list, with the list built so far. *)
Fixpoint implementations_for_requirement_loop (req_id : Unicode.str)
    (metadatas : list ImplMeta.t) (impls : list Implementation.t)
    : Exc (list Implementation.t) :=
  match metadatas with
  | [] => Return impls
  | meta :: rest =>
      impl ←! decode_impl meta;
      if satisfies_requirement impl req_id
      then implementations_for_requirement_loop req_id rest (impls ++ [impl])
      else implementations_for_requirement_loop req_id rest impls
  end.

(** The [req_id] asked for is compared with the text of the links. *)
Definition get_implementations_for_requirement s (req_id : Unicode.str)
    : Exc (list Implementation.t) :=
  implementations_for_requirement_loop req_id
    ((λ ie, metadata ie.2) <$> Chroma.get_all (implementations s)) [].

(** *** Chat messages *)

Definition add_chat_message s (msg_id content : string) (e : Embedding)
    (session role timestamp : string) : LoomStore Embedding :=
  mkStore (requirements s) (implementations s)
    (Chroma.upsert (chat_messages s) msg_id e (ChatMeta.mk session role timestamp) content).

Definition search_chat s (query_embedding : Embedding) (n : nat)
    : Exc (list (ChatHit Distance)) :=
  results ←! Chroma.query distance dist_leb (chat_messages s) query_embedding n;
  Return ((λ r, mkChatHit r.1.1 (document r.1.2) (metadata r.1.2) (Some r.2))
            <$> results).

(** *** Utilities *)

(** [stats()]: the three counts, in the order of the dict. *)
Definition stats s : nat * nat * nat :=
  (Chroma.count (requirements s), Chroma.count (implementations s),
   Chroma.count (chat_messages s)).

(** *** Histories of a store

    The calls that write to a store; every other method only reads. *)
Inductive Op : Type :=
| AddRequirement (req : Requirement.t) (e : Embedding)
| SupersedeRequirement (req_id now : string)
| AddImplementation (impl : Implementation.t) (e : Embedding)
| AddChatMessage (msg_id content : string) (e : Embedding)
    (session role timestamp : string).

Definition step s (o : Op) : LoomStore Embedding :=
  match o with
  | AddRequirement req e => add_requirement s req e
  | SupersedeRequirement req_id now => supersede_requirement s req_id now
  | AddImplementation impl e => add_implementation s impl e
  | AddChatMessage msg_id content e session role timestamp =>
      add_chat_message s msg_id content e session role timestamp
  end.

Definition run s (ops : list Op) : LoomStore Embedding := foldl step s ops.

(** An operation that cannot take the requirement [req_id] back to
    active: anything but [add_requirement] of a record with this id and
    no [superseded_at]. *)
Definition keeps_superseded req_id (o : Op) : bool :=
  match o with
  | AddRequirement req _ =>
      negb (String.eqb (Requirement.id req) req_id)
      || negb (PyStr.is_none (Requirement.superseded_at req))
  | _ => true
  end.

(** *** Well-formed stores

    What [add_requirement] establishes for every entry it writes: the
    entry is filed under the id of its record and its document is the
    text of the requirement. *)
Definition requirement_entry_ok (ie : string * Entry Embedding Requirement.t) : bool :=
  String.eqb (Requirement.id (metadata ie.2)) ie.1
  && String.eqb (document ie.2) (Requirement.value (metadata ie.2)).

Definition requirements_ok s : bool :=
  forallb requirement_entry_ok (map_to_list (requirements s)).

(** The data model of [superseded_at]: null, or the text of the time of
    the supersession; the empty string is neither. *)
Definition superseded_at_value_ok (v : option string) : bool :=
  match v with
  | Some ts => negb (PyStr.is_empty ts)
  | None => true
  end.

Definition superseded_at_ok s : bool :=
  forallb (λ ie, superseded_at_value_ok (Requirement.superseded_at (metadata ie.2)))
    (map_to_list (requirements s)).

(** An operation whose arguments keep to that data model: the record
    added has a [superseded_at] of the model, the time given to
    [supersede_requirement] is not empty. *)
Definition timestamps_ok (o : Op) : bool :=
  match o with
  | AddRequirement req _ => superseded_at_value_ok (Requirement.superseded_at req)
  | SupersedeRequirement _ now => negb (PyStr.is_empty now)
  | _ => true
  end.

(** What [add_implementation] establishes: the stored [satisfies] text
    decodes. *)
Definition implementation_entry_ok (ie : string * Entry Embedding ImplMeta.t) : bool :=
  match Json.loads (ImplMeta.satisfies (metadata ie.2)) with
  | Return _ => true
  | _ => false
  end.

Definition implementations_ok s : bool :=
  forallb implementation_entry_ok (map_to_list (implementations s)).

End Store.

(** ** Identifiers and hashes

    [sha256_hexdigest text] stands for
    [hashlib.sha256(text.encode()).hexdigest()]. *)

Section Hashing.
Context (sha256_hexdigest : string → string).

(** [text[:n]] *)
Fixpoint slice_to (n : nat) (text : string) : string :=
  match n, text with
  | S n', String c rest => String c (slice_to n' rest)
  | _, _ => EmptyString
  end.

Definition generate_impl_id (file lines : string) : string :=
  slice_to 16 (sha256_hexdigest (file +:+ ":" +:+ lines)).

Definition generate_content_hash (content : string) : string :=
  sha256_hexdigest content.
End Hashing.

(** ** [TestSpecStore]: the operations of [src/testspec.py]

    The state is the two fields the methods read and write; the JSON file
    [_save] rewrites is a copy of [_specs]. *)

Record TestSpecStore : Type := mkTestSpecStore {
  _specs : gmap string TestSpec.t;
  _private_ids : gset string
}.

Module TestSpecs.
Import PyStr.

Implicit Types (st : TestSpecStore) (req_id line content : string).

(** [l[i]] *)
Definition index {A} (l : list A) (i : nat) : Exc A :=
  match l !! i with
  | Some x => Return x
  | None => Raise IndexError
  end.

(** The body of the loop of [_load_private] on one line of the file. *)
Definition load_private_line (ids : gset string) line : Exc (gset string) :=
  let line := strip line in
  if startswith line "- REQ-" || startswith line "* REQ-" then
    tok ←! index (split line) 1;
    Return ({[ rstrip ":," tok ]} ∪ ids)
  else if startswith line "REQ-" then
    tok ←! index (split line) 0;
    Return ({[ rstrip ":," tok ]} ∪ ids)
  else Return ids.

Fixpoint load_private_lines (ids : gset string) (lines : list string)
    : Exc (gset string) :=
  match lines with
  | [] => Return ids
  | line :: rest =>
      ids' ←! load_private_line ids line;
      load_private_lines ids' rest
  end.

(** [_load_private], with [content] the text of [PRIVATE.md]. *)
Definition _load_private st content : Exc TestSpecStore :=
  ids ←! load_private_lines (_private_ids st) (split_on newline content);
  Return (mkTestSpecStore (_specs st) ids).

(** [_load], with the two files as read: the entries of the JSON object
    of [.loom-specs.json] in their order, and the text of [PRIVATE.md];
    [None] stands for a file that does not exist. *)
Definition _load st (specs_file : option (list (string * TestSpec.t)))
    (private_file : option string) : Exc TestSpecStore :=
  let st1 :=
    match specs_file with
    | Some data =>
        mkTestSpecStore
          (foldl (λ specs kv, <[kv.1 := kv.2]> specs) (_specs st) data)
          (_private_ids st)
    | None => st
    end in
  match private_file with
  | Some content => _load_private st1 content
  | None => Return st1
  end.

(** [TestSpecStore(project_dir)] *)
Definition init (specs_file : option (list (string * TestSpec.t)))
    (private_file : option string) : Exc TestSpecStore :=
  _load (mkTestSpecStore ∅ ∅) specs_file private_file.

Definition add_spec st (spec : TestSpec.t) : TestSpecStore :=
  mkTestSpecStore (<[TestSpec.req_id spec := spec]> (_specs st)) (_private_ids st).

(** [mark_verified], with [now] the current time as text: the new state
    and the answer. The source sets the field on the stored object; the
    state here holds values, so an object filed under two ids is out of
    its reach. *)
Definition mark_verified st req_id (now : string) : TestSpecStore * bool :=
  match _specs st !! req_id with
  | Some spec =>
      let spec' :=
        TestSpec.mk (TestSpec.req_id spec) (TestSpec.description spec)
          (TestSpec.steps spec) (TestSpec.expected spec) (TestSpec.automated spec)
          (TestSpec.test_file spec) (Some now) (TestSpec.private spec) in
      (mkTestSpecStore (<[req_id := spec']> (_specs st)) (_private_ids st), true)
  | None => (st, false)
  end.

(** What [add_spec] establishes: a spec is filed under its own [req_id]. *)
Definition specs_ok st : bool :=
  forallb (λ kv, String.eqb (TestSpec.req_id kv.2) kv.1) (map_to_list (_specs st)).

Definition get_spec st req_id : option TestSpec.t := _specs st !! req_id.

Definition list_specs st (include_private : bool) : list TestSpec.t :=
  let specs := (map_to_list (_specs st)).*2 in
  if negb include_private
  then filter (λ s, ¬ (TestSpec.req_id s ∈ _private_ids st)
                    ∧ TestSpec.private s = false) specs
  else specs.

Definition is_private st req_id : bool :=
  if bool_decide (req_id ∈ _private_ids st) then true
  else match _specs st !! req_id with
       | Some spec => TestSpec.private spec
       | None => false
       end.

Definition get_private_ids st : gset string := _private_ids st.

(** The characters of [string.punctuation]. *)
Definition is_punctuation (c : ascii) : bool :=
  let n := code c in
  ((33 <=? n) && (n <=? 47) || (58 <=? n) && (n <=? 64)
   || (91 <=? n) && (n <=? 96) || (123 <=? n) && (n <=? 126))%N.

(** The annotation-file rule as the specification words it: a line whose
    first token is a bullet and whose second token is a requirement
    identifier names that token without its trailing punctuation; so does
    a line whose first token is a requirement identifier. *)
Definition spec_line_id line : option string :=
  match split line with
  | bullet :: tok :: _ =>
      if (String.eqb bullet "-" || String.eqb bullet "*") && startswith tok "REQ-"
      then Some (rstrip_by is_punctuation tok)
      else if startswith bullet "REQ-" then Some (rstrip_by is_punctuation bullet)
      else None
  | [tok] =>
      if startswith tok "REQ-" then Some (rstrip_by is_punctuation tok) else None
  | [] => None
  end.

Definition spec_private_ids content : gset string :=
  list_to_set (omap spec_line_id (split_on newline content)).

End TestSpecs.

Arguments Op : clear implicits.

(** ** Sample data

    The records of [tests/test_store.py], over integer vectors with the
    squared Euclidean distance. *)

Definition sample_embedding : list Z := [1; 1; 1]%Z.

Fixpoint squared_distance (a b : list Z) : Z :=
  match a, b with
  | x :: a', y :: b' => ((x - y) * (x - y) + squared_distance a' b')%Z
  | _, _ => 0%Z
  end.

Definition sample_time : string := "2026-01-01T09:00:00+00:00".
Definition sample_now : string := "2026-01-02T09:00:00+00:00".

Definition req_old : Requirement.t :=
  Requirement.mk "REQ-001" "ui" "Old dashboard spec" "msg-1" "test-session"
    sample_time None.

Definition req_new : Requirement.t :=
  Requirement.mk "REQ-002" "ui" "New dashboard spec with agents" "msg-2"
    "test-session" sample_time None.

(** A record that arrives with an empty [superseded_at]. *)
Definition req_blank : Requirement.t :=
  Requirement.mk "REQ-003" "ui" "Dashboard shows status" "msg-3" "test-session"
    sample_time (Some "").

Definition impl_dashboard : Implementation.t :=
  Implementation.mk "IMPL-001" "src/dashboard.py" "1-50"
    "def render_dashboard(): pass" "abc123" sample_time
    [Link.mk "REQ-001" "v1"].

Definition impl_agents : Implementation.t :=
  Implementation.mk "IMPL-002" "src/agents.py" "10-20"
    "def list_agents(): pass" "def456" sample_time
    [Link.mk "REQ-002" "v1"; Link.mk "REQ-001" "v1"].

Definition impl_unlinked : Implementation.t :=
  Implementation.mk "IMPL-003" "src/util.py" "1-5" "pass" "0a0a" sample_time [].

(** Two active requirements. *)
Definition store_two : LoomStore (list Z) :=
  add_requirement (add_requirement empty_store req_old sample_embedding)
    req_new sample_embedding.

(** The same store once [REQ-001] is superseded. *)
Definition store_superseded : LoomStore (list Z) :=
  supersede_requirement store_two "REQ-001" sample_now.

Definition store_linked : LoomStore (list Z) :=
  add_implementation
    (add_implementation
       (add_implementation store_two impl_dashboard sample_embedding)
       impl_agents sample_embedding)
    impl_unlinked sample_embedding.

Definition sample_history : list (Op (list Z)) :=
  [ AddRequirement req_blank sample_embedding;
    SupersedeRequirement "REQ-001" "2026-01-03T09:00:00+00:00";
    AddImplementation impl_dashboard sample_embedding;
    SupersedeRequirement "REQ-002" sample_now;
    AddChatMessage "msg-9" "hello" sample_embedding "test-session" "user" sample_time;
    AddRequirement
      (Requirement.set_superseded_at req_old (Some sample_time)) sample_embedding ].

Definition no_private : TestSpecStore := mkTestSpecStore ∅ ∅.

Definition spec_public : TestSpec.t :=
  TestSpec.mk "REQ-001" "Dashboard renders" ["open the dashboard"] "status shown"
    false None None false.

Definition spec_flagged : TestSpec.t :=
  TestSpec.mk "REQ-002" "Agents listed" [] "" true (Some "tests/test_agents.py")
    None true.

Definition specs_sample : TestSpecStore :=
  TestSpecs.add_spec (TestSpecs.add_spec (mkTestSpecStore ∅ {["REQ-003"]}) spec_public)
    spec_flagged.

(** ** Kinds of operations and further sample data *)

Arguments impl_hit_id {Distance} _.
Arguments impl_hit_implementation {Distance} _.
Arguments impl_hit_distance {Distance} _.
Arguments chat_hit_id {Distance} _.
Arguments chat_hit_content {Distance} _.
Arguments chat_hit_metadata {Distance} _.
Arguments chat_hit_distance {Distance} _.

(** The calls that write to the requirements collection. *)
Definition writes_requirements {Embedding} (o : Op Embedding) : bool :=
  match o with
  | AddRequirement _ _ | SupersedeRequirement _ _ => true
  | _ => false
  end.

(** The calls that write to the implementations collection. *)
Definition writes_implementations {Embedding} (o : Op Embedding) : bool :=
  match o with
  | AddImplementation _ _ => true
  | _ => false
  end.

(** [add_requirement] of a record with the id [req_id]. *)
Definition adds_requirement {Embedding} (req_id : string) (o : Op Embedding) : bool :=
  match o with
  | AddRequirement req _ => String.eqb (Requirement.id req) req_id
  | _ => false
  end.

(** A link whose text leaves the ASCII range: a check mark (U+2713) and
    a character above FFFF (U+1F600). *)
Definition check_mark : Unicode.char := Unicode.mk 10003 eq_refl.
Definition grinning_face : Unicode.char := Unicode.mk 128512 eq_refl.

Definition impl_unicode : Implementation.t :=
  Implementation.mk "IMPL-004" "src/report.py" "7-9" "pass" "0b0b" sample_time
    [Link.mk (Unicode.of_string "REQ-" ++ [check_mark])%list [grinning_face]].

(** A text between double quotes. *)
Definition quoted (text : string) : string :=
  String PyStr.dquote (text +:+ String PyStr.dquote "").

(** A JSON text [json.dumps] would not write: more whitespace, the
    members in the other order, capital hexadecimal digits, an escaped
    solidus. *)
Definition satisfies_by_hand : string :=
  "[ {" +:+ quoted "req_version" +:+ " : "
  +:+ quoted ("v" +:+ String PyStr.backslash "/1") +:+ " , "
  +:+ quoted "req_id" +:+ ":"
  +:+ quoted ("REQ-" +:+ String PyStr.backslash "u2713"
              +:+ String PyStr.backslash "uD83D" +:+ String PyStr.backslash "uDE00")
  +:+ "} ]".

(** A history whose records and times keep to the data model of
    [superseded_at]. *)
Definition dated_history : list (Op (list Z)) :=
  [ AddRequirement req_old sample_embedding;
    AddRequirement req_new sample_embedding;
    SupersedeRequirement "REQ-001" sample_now;
    AddImplementation impl_dashboard sample_embedding;
    AddRequirement
      (Requirement.set_superseded_at req_new (Some sample_time)) sample_embedding;
    SupersedeRequirement "REQ-002" sample_now ].

Definition requirement_history : list (Op (list Z)) :=
  [ AddRequirement req_blank sample_embedding;
    SupersedeRequirement "REQ-001" sample_now;
    AddChatMessage "msg-3" "superseded" sample_embedding "test-session" "user"
      sample_time ].

Definition chat_history : list (Op (list Z)) :=
  [ AddChatMessage "msg-1" "Dashboard shows status" [1; 0; 0]%Z "test-session"
      "user" sample_time;
    AddImplementation impl_dashboard sample_embedding;
    AddChatMessage "msg-2" "ok" [0; 1; 0]%Z "test-session" "assistant" sample_time ].

(** * Properties *)

(** Reduction of a bind of the option monad on a known result. *)
Ltac bind_some := cbn [mbind option_bind].

(** ** Strings *)

Section StringFacts.
Implicit Types (s t u : string) (c : ascii).

Lemma string_app_cons c s t : String c s +:+ t = String c (s +:+ t).
Proof. reflexivity. Qed.

Lemma string_app_nil_l s : "" +:+ s = s.
Proof. reflexivity. Qed.

Lemma string_app_assoc s t u : (s +:+ t) +:+ u = s +:+ (t +:+ u).
Proof.
  induction s as [|c s IH]; [done|].
  by rewrite !string_app_cons, IH.
Qed.

Lemma string_app_nil_r s : s +:+ "" = s.
Proof.
  induction s as [|c s IH]; [done|]. by rewrite string_app_cons, IH.
Qed.

(** [rstrip] removes a suffix of stripped characters and stops at the
    first character from the right that is not one. *)
Lemma rstrip_by_suffix (p : ascii → bool) s :
  ∃ suffix, s = PyStr.rstrip_by p s +:+ suffix ∧ PyStr.all_chars p suffix = true.
Proof.
  induction s as [|c s (suffix & Heq & Hall)]; [by exists ""|].
  cbn [PyStr.rstrip_by]. destruct (PyStr.rstrip_by p s) as [|d r] eqn:Hr.
  - simpl. destruct (p c) eqn:Hc.
    + exists (String c suffix). split; [by rewrite Heq|]. simpl. by rewrite Hc.
    + exists suffix. by rewrite string_app_cons, <- Heq.
  - simpl. exists suffix. by rewrite string_app_cons, <- Heq.
Qed.

Lemma rstrip_by_last (p : ascii → bool) s c :
  PyStr.last_char (PyStr.rstrip_by p s) = Some c → p c = false.
Proof.
  induction s as [|d s IH]; [done|].
  cbn [PyStr.rstrip_by]. destruct (PyStr.rstrip_by p s) as [|e r] eqn:Hr.
  - simpl. destruct (p d) eqn:Hd; [done|]. simpl. by intros [= <-].
  - simpl. exact IH.
Qed.

(** [strip] starts from the first character that is not stripped. *)
Lemma lstrip_by_prefix (p : ascii → bool) s :
  ∃ prefix, s = prefix +:+ PyStr.lstrip_by p s ∧ PyStr.all_chars p prefix = true.
Proof.
  induction s as [|c s (prefix & Heq & Hall)]; [by exists ""|].
  cbn [PyStr.lstrip_by]. destruct (p c) eqn:Hc.
  - exists (String c prefix). rewrite string_app_cons, <- Heq. simpl.
    by rewrite Hc.
  - by exists "".
Qed.

Lemma lstrip_by_head (p : ascii → bool) s c rest :
  PyStr.lstrip_by p s = String c rest → p c = false.
Proof.
  induction s as [|d s IH]; [done|].
  cbn [PyStr.lstrip_by]. destruct (p d) eqn:Hd; [exact IH|].
  by intros [= <- _].
Qed.

(** The pieces of [split(sep)] hold no separator and join back to the text. *)
Lemma split_on_pieces (sep : ascii) s :
  Forall (λ piece, PyStr.all_chars (λ c, negb (Ascii.eqb c sep)) piece = true)
    (PyStr.split_on sep s).
Proof.
  induction s as [|c s IH]; [by repeat constructor|].
  cbn [PyStr.split_on]. destruct (Ascii.eqb c sep) eqn:Hc.
  - by constructor.
  - destruct (PyStr.split_on sep s) as [|h t]; [repeat constructor; simpl; by rewrite Hc|].
    apply Forall_cons in IH as [Hh Ht]. constructor; [|done].
    simpl. by rewrite Hc.
Qed.

Lemma join_cons (sep a b : string) (l : list string) :
  PyStr.join sep (a :: b :: l) = a +:+ sep +:+ PyStr.join sep (b :: l).
Proof. reflexivity. Qed.

Lemma split_on_join (sep : ascii) s :
  PyStr.join (String sep "") (PyStr.split_on sep s) = s.
Proof.
  induction s as [|c s IH]; [done|].
  cbn [PyStr.split_on]. destruct (Ascii.eqb c sep) eqn:Hc.
  - apply Ascii.eqb_eq in Hc as ->.
    destruct (PyStr.split_on sep s) as [|h t] eqn:Hs; [by destruct s|].
    by rewrite join_cons, string_app_nil_l, string_app_cons, string_app_nil_l, IH.
  - destruct (PyStr.split_on sep s) as [|h t] eqn:Hs; [by destruct s|].
    destruct t as [|h' t].
    + simpl in *. by rewrite IH.
    + rewrite join_cons in *. by rewrite string_app_cons, IH.
Qed.

(** The tokens of [split()] are not empty and hold no whitespace. *)
Lemma split_tokens s :
  Forall (λ tok, PyStr.is_empty tok = false
                 ∧ PyStr.all_chars (λ c, negb (PyStr.isspace c)) tok = true)
    (PyStr.split s).
Proof.
  induction s as [|c s IH]; [constructor|].
  cbn [PyStr.split]. destruct (PyStr.isspace c) eqn:Hc; [done|].
  destruct s as [|d s]; [repeat constructor; simpl; by rewrite Hc|].
  destruct (PyStr.isspace d) eqn:Hd.
  - constructor; [|done]. simpl. by rewrite Hc.
  - destruct (PyStr.split (String d s)) as [|t ts];
      [repeat constructor; simpl; by rewrite Hc|].
    apply Forall_cons in IH as [[_ Ht] Hts]. constructor; [|done].
    simpl. by rewrite Hc.
Qed.

Lemma string_length_app s t :
  String.length (s +:+ t) = String.length s + String.length t.
Proof.
  induction s as [|c s IH]; [done|].
  rewrite string_app_cons. cbn [String.length]. by rewrite IH.
Qed.
End StringFacts.

(** ** Unicode text *)

Section UnicodeFacts.
Implicit Types (a b c : Unicode.char) (n : N).

Lemma char_eq a b : Unicode.code a = Unicode.code b → a = b.
Proof.
  destruct a as [n Hn], b as [m Hm]. simpl. intros <-.
  f_equal. apply proof_irrel.
Qed.

Lemma of_N_spec n :
  match Unicode.of_N n with
  | Some c => Unicode.code c = n
  | None => Unicode.is_scalar n = false
  end.
Proof.
  unfold Unicode.of_N.
  generalize (eq_refl (Unicode.is_scalar n)).
  generalize (Unicode.is_scalar n) at 2 3.
  by intros [] H.
Qed.

Lemma of_N_code c : Unicode.of_N (Unicode.code c) = Some c.
Proof.
  pose proof (of_N_spec (Unicode.code c)) as H.
  destruct (Unicode.of_N (Unicode.code c)) as [c'|].
  - f_equal. by apply char_eq.
  - by rewrite Unicode.code_ok in H.
Qed.

Lemma of_N_Some n c : Unicode.code c = n → Unicode.of_N n = Some c.
Proof. intros <-. apply of_N_code. Qed.

Lemma code_of_ascii (x : ascii) : Unicode.code (Unicode.of_ascii x) = N_of_ascii x.
Proof.
  unfold Unicode.of_ascii. pose proof (of_N_spec (N_of_ascii x)) as H.
  destruct (Unicode.of_N (N_of_ascii x)) as [c|]; [done|].
  pose proof (N_ascii_bounded x) as Hlt. unfold Unicode.is_scalar in H.
  apply orb_false_elim in H as [H _]. apply N.ltb_ge in H. lia.
Qed.

Lemma code_scalar c :
  (Unicode.code c < 55296 ∨ 57343 < Unicode.code c < 1114112)%N.
Proof.
  pose proof (Unicode.code_ok c) as H. unfold Unicode.is_scalar in H.
  apply orb_prop in H as [H | H].
  - left. by apply N.ltb_lt.
  - right. apply andb_prop in H as [H1 H2]. apply N.ltb_lt in H1, H2. lia.
Qed.

End UnicodeFacts.

(** ** The JSON codec *)

Section JsonFacts.
Import PyStr Json.
Implicit Types (s rest : string) (c : Unicode.char) (text : Unicode.str)
  (l : Link.t) (ls : list Link.t).

(** The four digits [hex4] writes are read back as the number. *)
Lemma hex_value_hex_digit (d : N) : (d < 16)%N → hex_value (hex_digit d) = Some d.
Proof.
  intros Hd.
  assert (d ∈ [0; 1; 2; 3; 4; 5; 6; 7; 8; 9; 10; 11; 12; 13; 14; 15]%N) as Hin.
  { rewrite !elem_of_cons. lia. }
  repeat (apply elem_of_cons in Hin as [-> | Hin]; [reflexivity|]).
  by apply elem_of_nil in Hin.
Qed.

Lemma decode_hex4 (n : N) (rest : string) :
  (n < 65536)%N →
  ∃ h1 h2 h3 h4,
    hex4 n +:+ rest = String h1 (String h2 (String h3 (String h4 rest)))
    ∧ decode_uXXXX h1 h2 h3 h4 = Some n.
Proof.
  intros Hn. eexists _, _, _, _. split; [reflexivity|].
  unfold decode_uXXXX.
  replace (n / 4096)%N with (n / 16 / 16 / 16)%N
    by (by rewrite !N.Div0.div_div).
  replace (n / 256)%N with (n / 16 / 16)%N by (by rewrite !N.Div0.div_div).
  pose proof (N.div_mod' n 16) as H0.
  pose proof (N.div_mod' (n / 16) 16) as H1.
  pose proof (N.div_mod' (n / 16 / 16) 16) as H2.
  assert (n `mod` 16 < 16)%N as L0 by (by apply N.mod_lt).
  assert ((n / 16) `mod` 16 < 16)%N as L1 by (by apply N.mod_lt).
  assert ((n / 16 / 16) `mod` 16 < 16)%N as L2 by (by apply N.mod_lt).
  remember (n `mod` 16)%N as r0 eqn:E. clear E.
  remember (n / 16)%N as q1 eqn:E. clear E.
  remember (q1 `mod` 16)%N as r1 eqn:E. clear E.
  remember (q1 / 16)%N as q2 eqn:E. clear E.
  remember (q2 `mod` 16)%N as r2 eqn:E. clear E.
  remember (q2 / 16)%N as q3 eqn:E. clear E.
  rewrite !hex_value_hex_digit by lia. simpl. f_equal. lia.
Qed.
(** Bit operations on numbers with disjoint bits. *)
Lemma testbit_below (b k m : N) : (b < 2 ^ k)%N → (k ≤ m)%N → N.testbit b m = false.
Proof.
  intros Hb Hm. destruct (decide (b = 0%N)) as [-> | Hne]; [apply N.bits_0|].
  apply N.bits_above_log2. apply N.log2_lt_pow2; [lia|].
  eapply N.lt_le_trans; [exact Hb|]. by apply N.pow_le_mono_r.
Qed.

Lemma lor_add (a b k : N) : (b < 2 ^ k)%N → N.lor (a * 2 ^ k) b = (a * 2 ^ k + b)%N.
Proof.
  intros Hb.
  assert (N.land (a * 2 ^ k) b = 0%N) as Hland.
  { apply N.bits_inj. intros m. rewrite N.land_spec, N.bits_0.
    destruct (decide (m < k)%N) as [Hm | Hm].
    - by rewrite N.mul_pow2_bits_low.
    - rewrite (testbit_below b k m) by lia. apply andb_false_r. }
  by rewrite N.add_nocarry_lxor, N.lxor_lor.
Qed.

Lemma surrogates (n : N) :
  (65536 ≤ n < 1114112)%N →
  let v := (n - 65536)%N in
  let s1 := N.lor 55296 (N.land (N.shiftr v 10) 1023) in
  let s2 := N.lor 56320 (N.land v 1023) in
  (55296 ≤ s1 ≤ 56319)%N ∧ (56320 ≤ s2 ≤ 57343)%N
  ∧ (65536 + N.lor (N.shiftl (s1 - 55296) 10) (s2 - 56320))%N = n.
Proof.
  intros Hn v s1 s2.
  assert (v < 1048576)%N as Hv by (subst v; lia).
  assert (N.shiftr v 10 = v / 1024)%N as Hshift by apply N.shiftr_div_pow2.
  assert (∀ x, N.land x 1023 = x `mod` 1024)%N as Hmask
    by (intros x; apply (N.land_ones x 10)).
  assert (v / 1024 < 1024)%N as Hhi
    by (apply N.Div0.div_lt_upper_bound; lia).
  assert (v `mod` 1024 < 1024)%N as Hlo by (by apply N.mod_lt).
  pose proof (N.div_mod' v 1024) as Hdiv.
  assert (s1 = 55296 + v / 1024)%N as Hs1.
  { subst s1. rewrite Hshift, Hmask, N.mod_small by done.
    apply (lor_add 54 (v / 1024) 10 Hhi). }
  assert (s2 = 56320 + v `mod` 1024)%N as Hs2.
  { subst s2. rewrite Hmask. apply (lor_add 55 (v `mod` 1024) 10 Hlo). }
  rewrite Hs1, Hs2. clear Hs1 Hs2 Hshift s1 s2.
  remember (v / 1024)%N as q eqn:E. clear E.
  remember (v `mod` 1024)%N as r eqn:E. clear E.
  replace (55296 + q - 55296)%N with q by lia.
  replace (56320 + r - 56320)%N with r by lia.
  rewrite N.shiftl_mul_pow2, lor_add by done.
  change (2 ^ 10)%N with 1024%N. subst v. lia.
Qed.

(** Unfoldings of [scanstring]. *)
Lemma scanstring_raw (a : ascii) rest :
  Ascii.eqb a dquote = false → Ascii.eqb a backslash = false →
  (code a <? 32)%N = false →
  scanstring (String a rest)
  = '(body, r) ← scanstring rest; Some (Unicode.of_ascii a :: body, r).
Proof. intros H1 H2 H3. cbn [scanstring]. by rewrite H1, H2, H3. Qed.

Lemma scanstring_uXXXX (h1 h2 h3 h4 : ascii) (uni : N) c rest :
  decode_uXXXX h1 h2 h3 h4 = Some uni →
  Unicode.code c = uni →
  scanstring (String backslash (String "u"
    (String h1 (String h2 (String h3 (String h4 rest))))))
  = '(body, r) ← scanstring rest; Some (c :: body, r).
Proof.
  intros Hdec Hc. cbn [scanstring].
  change (Ascii.eqb backslash dquote) with false.
  change (Ascii.eqb backslash backslash) with true.
  change (Ascii.eqb "u" "u") with true. cbv beta iota.
  rewrite Hdec. bind_some.
  destruct (code_scalar c) as [Hlt | Hgt]; rewrite Hc in *.
  - rewrite (proj2 (N.leb_gt 55296 uni)) by done. simpl.
    by rewrite (of_N_Some uni c).
  - rewrite (proj2 (N.leb_gt uni 56319)) by lia. rewrite andb_false_r.
    by rewrite (of_N_Some uni c).
Qed.

Lemma scanstring_uXXXX_pair (h1 h2 h3 h4 l1 l2 l3 l4 : ascii) (uni uni2 : N) c rest :
  decode_uXXXX h1 h2 h3 h4 = Some uni →
  (55296 ≤ uni ≤ 56319)%N →
  decode_uXXXX l1 l2 l3 l4 = Some uni2 →
  (56320 ≤ uni2 ≤ 57343)%N →
  Unicode.code c = (65536 + N.lor (N.shiftl (uni - 55296) 10) (uni2 - 56320))%N →
  scanstring (String backslash (String "u"
    (String h1 (String h2 (String h3 (String h4
      (String backslash (String "u"
        (String l1 (String l2 (String l3 (String l4 rest))))))))))))
  = '(body, r) ← scanstring rest; Some (c :: body, r).
Proof.
  intros Hdec Hhigh Hdec2 Hlow Hc. cbn [scanstring].
  change (Ascii.eqb backslash dquote) with false.
  change (Ascii.eqb backslash backslash) with true.
  change (Ascii.eqb "u" "u") with true. cbv beta iota.
  rewrite Hdec. bind_some.
  rewrite (proj2 (N.leb_le 55296 uni)), (proj2 (N.leb_le uni 56319)) by lia.
  cbv beta iota. simpl andb. cbv beta iota.
  rewrite Hdec2. bind_some.
  rewrite (proj2 (N.leb_le 56320 uni2)), (proj2 (N.leb_le uni2 57343)) by lia.
  simpl andb. cbv beta iota.
  by rewrite (of_N_Some _ c).
Qed.

Lemma ascii_of_N_eqb (n m : N) :
  (n < 256)%N → (m < 256)%N → n ≠ m → Ascii.eqb (ascii_of_N n) (ascii_of_N m) = false.
Proof.
  intros Hn Hm Hne. apply Ascii.eqb_neq. intros Heq. apply Hne.
  by rewrite <- (N_ascii_embedding n), <- (N_ascii_embedding m), Heq.
Qed.

(** Decoding undoes the escape of one character, whatever it is. *)
Lemma scanstring_escape_char c rest :
  scanstring (escape_char c +:+ rest)
  = '(body, r) ← scanstring rest; Some (c :: body, r).
Proof.
  unfold escape_char.
  assert (∀ k (H : Unicode.is_scalar k = true),
            Unicode.code c = k → c = Unicode.mk k H) as Hshort.
  { intros k H Hk. by apply char_eq. }
  destruct (N.eqb_spec (Unicode.code c) 34) as [H34 | H34];
    [rewrite (Hshort 34%N eq_refl H34); reflexivity|].
  destruct (N.eqb_spec (Unicode.code c) 92) as [H92 | H92];
    [rewrite (Hshort 92%N eq_refl H92); reflexivity|].
  destruct (N.eqb_spec (Unicode.code c) 10) as [H10 | H10];
    [rewrite (Hshort 10%N eq_refl H10); reflexivity|].
  destruct (N.eqb_spec (Unicode.code c) 13) as [H13 | H13];
    [rewrite (Hshort 13%N eq_refl H13); reflexivity|].
  destruct (N.eqb_spec (Unicode.code c) 9) as [H9 | H9];
    [rewrite (Hshort 9%N eq_refl H9); reflexivity|].
  destruct (N.eqb_spec (Unicode.code c) 8) as [H8 | H8];
    [rewrite (Hshort 8%N eq_refl H8); reflexivity|].
  destruct (N.eqb_spec (Unicode.code c) 12) as [H12 | H12];
    [rewrite (Hshort 12%N eq_refl H12); reflexivity|].
  cbv zeta. set (n := Unicode.code c) in *.
  destruct ((32 <=? n) && (n <=? 126))%N eqn:Hprint.
  - apply andb_prop in Hprint as [Hlo Hhi].
    apply N.leb_le in Hlo, Hhi. rewrite string_app_cons, string_app_nil_l.
    rewrite scanstring_raw.
    + replace (Unicode.of_ascii (ascii_of_N n)) with c; [done|].
      apply char_eq. rewrite code_of_ascii, N_ascii_embedding; [done | lia].
    + apply (ascii_of_N_eqb n 34); lia.
    + apply (ascii_of_N_eqb n 92); lia.
    + unfold code. rewrite N_ascii_embedding by lia. apply N.ltb_ge. lia.
  - destruct (N.ltb_spec n 65536) as [Hbmp | Hastral].
    + unfold escape_u. rewrite !string_app_cons.
      destruct (decode_hex4 n rest Hbmp) as (h1 & h2 & h3 & h4 & -> & Hdec).
      by apply (scanstring_uXXXX h1 h2 h3 h4 n).
    + destruct (code_scalar c) as [Hlt | Hgt]; [fold n in Hlt; lia | fold n in Hgt].
      destruct (surrogates n) as (Hs1 & Hs2 & Hjoin); [lia|].
      cbv zeta in Hs1, Hs2, Hjoin.
      set (s1 := N.lor 55296 (N.land (N.shiftr (n - 65536) 10) 1023)) in *.
      set (s2 := N.lor 56320 (N.land (n - 65536) 1023)) in *.
      unfold escape_u. rewrite string_app_assoc, !string_app_cons.
      destruct (decode_hex4 s2 rest) as (l1 & l2 & l3 & l4 & -> & Hdec2); [lia|].
      destruct (decode_hex4 s1
                  (String backslash (String "u"
                     (String l1 (String l2 (String l3 (String l4 rest)))))))
        as (h1 & h2 & h3 & h4 & -> & Hdec1); [lia|].
      by apply (scanstring_uXXXX_pair h1 h2 h3 h4 l1 l2 l3 l4 s1 s2).
Qed.

Lemma scanstring_escape text rest :
  scanstring (escape text +:+ String dquote rest) = Some (text, rest).
Proof.
  induction text as [|c text IH]; [reflexivity|].
  cbn [escape]. rewrite string_app_assoc, scanstring_escape_char, IH.
  reflexivity.
Qed.

Lemma encode_string_app text rest :
  encode_string text +:+ rest = String dquote (escape text +:+ String dquote rest).
Proof.
  unfold encode_string. by rewrite string_app_cons, string_app_assoc.
Qed.

Lemma parse_string_encode text rest :
  parse_string (encode_string text +:+ rest) = Some (text, rest).
Proof.
  rewrite encode_string_app. unfold parse_string, expect.
  cbn. apply scanstring_escape.
Qed.

Lemma expect_hit (c : ascii) rest :
  is_ws c = false → expect c (String c rest) = Some rest.
Proof.
  intros Hc. unfold expect, skip_ws. cbn [lstrip_by].
  by rewrite Hc, Ascii.eqb_refl.
Qed.

Lemma skip_ws_hit (c : ascii) s : is_ws c = false → skip_ws (String c s) = String c s.
Proof. intros Hc. unfold skip_ws. cbn [lstrip_by]. by rewrite Hc. Qed.

Lemma expect_space (c : ascii) s : expect c (String " " s) = expect c s.
Proof. reflexivity. Qed.

Lemma parse_string_space s : parse_string (String " " s) = parse_string s.
Proof. reflexivity. Qed.

Lemma parse_member_encode (k v : Unicode.str) rest :
  parse_member (encode_string k +:+ String ":" (String " " (encode_string v +:+ rest)))
  = Some (k, v, rest).
Proof.
  unfold parse_member. rewrite parse_string_encode. bind_some.
  rewrite expect_hit by done. bind_some.
  rewrite parse_string_space, parse_string_encode. reflexivity.
Qed.

Lemma parse_member_space s : parse_member (String " " s) = parse_member s.
Proof. reflexivity. Qed.

Lemma encode_link_app l rest :
  encode_link l +:+ rest
  = String "{" (encode_string "req_id" +:+ String ":" (String " "
      (encode_string (Link.req_id l) +:+ String "," (String " "
        (encode_string "req_version" +:+ String ":" (String " "
          (encode_string (Link.req_version l) +:+ String "}" rest))))))).
Proof.
  unfold encode_link. rewrite !string_app_assoc. reflexivity.
Qed.

Lemma parse_link_encode l rest :
  parse_link (encode_link l +:+ rest) = Some (l, rest).
Proof.
  rewrite encode_link_app. unfold parse_link.
  rewrite expect_hit by done. bind_some.
  rewrite parse_member_encode. bind_some.
  rewrite expect_hit by done. bind_some.
  rewrite parse_member_space, parse_member_encode. bind_some.
  rewrite expect_hit by done. bind_some.
  by destruct l.
Qed.

Lemma parse_link_space s : parse_link (String " " s) = parse_link s.
Proof. reflexivity. Qed.

Lemma parse_links_space fuel s :
  parse_links fuel (String " " s) = parse_links fuel s.
Proof. destruct fuel; reflexivity. Qed.

Lemma parse_links_S fuel s :
  parse_links (S fuel) s
  = '(l, s1) ← parse_link s;
    match skip_ws s1 with
    | String c rest =>
        if Ascii.eqb c "," then
          '(ls, s2) ← parse_links fuel rest; Some (l :: ls, s2)
        else if Ascii.eqb c "]" then Some ([l], rest)
        else None
    | EmptyString => None
    end.
Proof. reflexivity. Qed.

Lemma encode_links_cons l l' ls :
  encode_links (l :: l' :: ls)
  = encode_link l +:+ String "," (String " " (encode_links (l' :: ls))).
Proof. reflexivity. Qed.

(** Fuel above the number of elements still to read is enough. *)
Lemma parse_links_encode ls : ∀ l fuel rest,
  length ls < fuel →
  parse_links fuel (encode_links (l :: ls) +:+ String "]" rest) = Some (l :: ls, rest).
Proof.
  induction ls as [|l' ls IH]; intros l fuel rest Hfuel;
    (destruct fuel as [|fuel]; [simpl in Hfuel; lia|]); rewrite parse_links_S.
  - change (encode_links [l]) with (encode_link l).
    rewrite parse_link_encode. reflexivity.
  - rewrite encode_links_cons, string_app_assoc, parse_link_encode.
    rewrite !string_app_cons. bind_some.
    rewrite skip_ws_hit by done. cbv beta iota.
    change (Ascii.eqb "," ",") with true. cbv beta iota.
    rewrite parse_links_space, IH; [reflexivity | simpl in Hfuel; lia].
Qed.

Lemma encode_links_head l ls rest :
  ∃ u, encode_links (l :: ls) +:+ rest = String "{" u.
Proof.
  destruct ls as [|l' ls].
  - change (encode_links [l]) with (encode_link l).
    rewrite encode_link_app. eauto.
  - rewrite encode_links_cons, string_app_assoc, encode_link_app. eauto.
Qed.

Lemma encode_links_length ls : (length ls ≤ String.length (encode_links ls))%nat.
Proof.
  induction ls as [|l ls IH]; [simpl; lia|].
  destruct ls as [|l' ls].
  - change (encode_links [l]) with (encode_link l).
    rewrite <- (string_app_nil_r (encode_link l)), encode_link_app.
    simpl. lia.
  - rewrite encode_links_cons, encode_link_app.
    cbn [String.length]. rewrite !string_length_app.
    cbn [String.length] in *. rewrite !string_length_app.
    cbn [String.length] in *. rewrite !string_length_app.
    cbn [String.length] in *. rewrite !string_length_app.
    cbn [String.length length] in *. lia.
Qed.

(** Round trip of the codec: decoding what [dumps] wrote gives the list
    back. *)
Lemma loads_dumps ls : loads (dumps ls) = Return ls.
Proof.
  unfold loads, dumps, parse_array. rewrite string_app_cons, string_app_nil_l.
  change (expect "[" (String "[" (encode_links ls +:+ "]")))
    with (Some (encode_links ls +:+ "]")).
  destruct ls as [|l ls]; [reflexivity|].
  cbn [mbind option_bind].
  destruct (encode_links_head l ls "]") as [u Hu].
  set (doc := encode_links (l :: ls) +:+ "]") in *.
  rewrite Hu at 1. rewrite skip_ws_hit by done. cbv beta iota.
  change (Ascii.eqb "{" "]") with false. cbv beta iota. subst doc.
  rewrite parse_links_encode; [reflexivity|].
  rewrite string_length_app.
  pose proof (encode_links_length (l :: ls)) as Hlen. simpl in *. lia.
Qed.
End JsonFacts.

(** ** The requirement registry *)

Section RequirementFacts.
Context {Embedding Distance : Type}.
Context (distance : Embedding → Embedding → Distance).
Context (dist_leb : Distance → Distance → bool).

Implicit Types (s : LoomStore Embedding) (req r : Requirement.t)
  (req_id now : string) (entry : Entry Embedding Requirement.t)
  (o : Op Embedding) (ops : list (Op Embedding)).

Lemma get_one {M} (c : gmap string (Entry Embedding M)) (i : string) :
  Chroma.get c [i] = match c !! i with Some e => [(i, e)] | None => [] end.
Proof. unfold Chroma.get. simpl. by destruct (c !! i). Qed.

Lemma get_requirement_lookup s req_id :
  get_requirement s req_id = metadata <$> requirements s !! req_id.
Proof.
  unfold get_requirement. rewrite get_one.
  by destruct (requirements s !! req_id).
Qed.

Lemma get_requirement_Some s req_id r :
  get_requirement s req_id = Some r
  ↔ ∃ entry, requirements s !! req_id = Some entry ∧ metadata entry = r.
Proof.
  rewrite get_requirement_lookup, fmap_Some.
  split; intros (entry & Hlook & Hmeta); eauto.
Qed.

Lemma supersede_requirement_unfold s req_id now :
  supersede_requirement s req_id now
  = match requirements s !! req_id with
    | Some entry =>
        if PyStr.truthy (Requirement.superseded_at (metadata entry)) then s
        else add_requirement s
               (Requirement.set_superseded_at (metadata entry) (Some now))
               (embedding entry)
    | None => s
    end.
Proof.
  unfold supersede_requirement. rewrite get_requirement_lookup, get_one.
  destruct (requirements s !! req_id) as [entry|]; simpl; [|done].
  by destruct (PyStr.truthy _).
Qed.

Lemma truthy_not_None (v : option string) : PyStr.truthy v = true → v ≠ None.
Proof. by destruct v. Qed.

Lemma requirements_ok_lookup s req_id entry :
  requirements_ok s = true →
  requirements s !! req_id = Some entry →
  Requirement.id (metadata entry) = req_id
  ∧ document entry = Requirement.value (metadata entry).
Proof.
  unfold requirements_ok. rewrite forallb_forall. intros Hall Hlook.
  specialize (Hall (req_id, entry)).
  rewrite <- list_elem_of_In, elem_of_map_to_list in Hall.
  specialize (Hall Hlook). unfold requirement_entry_ok in Hall.
  apply andb_prop in Hall as [H1 H2].
  apply String.eqb_eq in H1, H2. done.
Qed.

Lemma requirements_ok_intro s :
  (∀ req_id entry, requirements s !! req_id = Some entry →
     Requirement.id (metadata entry) = req_id
     ∧ document entry = Requirement.value (metadata entry)) →
  requirements_ok s = true.
Proof.
  intros Hall. unfold requirements_ok. apply forallb_forall.
  intros [k e] Hin. apply list_elem_of_In, elem_of_map_to_list in Hin.
  destruct (Hall k e Hin) as [H1 H2]. unfold requirement_entry_ok.
  simpl in *. rewrite H1, H2, !String.eqb_refl. done.
Qed.

(** Well-formedness is an invariant of the histories of a store. *)
Lemma empty_store_ok : requirements_ok (empty_store (Embedding:=Embedding)) = true.
Proof. reflexivity. Qed.

Lemma add_requirement_ok s req (e : Embedding) :
  requirements_ok s = true → requirements_ok (add_requirement s req e) = true.
Proof.
  intros Hok. apply requirements_ok_intro. intros k entry. simpl.
  unfold Chroma.upsert. rewrite lookup_insert. case_decide as Hk.
  - intros [= <-]. by subst.
  - intros Hlook. by apply (requirements_ok_lookup s).
Qed.

Lemma supersede_requirement_ok s req_id now :
  requirements_ok s = true → requirements_ok (supersede_requirement s req_id now) = true.
Proof.
  intros Hok. rewrite supersede_requirement_unfold.
  destruct (requirements s !! req_id) as [entry|]; [|done].
  destruct (PyStr.truthy _); [done|]. by apply add_requirement_ok.
Qed.

Lemma step_ok s o : requirements_ok s = true → requirements_ok (step s o) = true.
Proof.
  destruct o; simpl; auto using add_requirement_ok, supersede_requirement_ok.
Qed.

Lemma run_ok ops : ∀ s, requirements_ok s = true → requirements_ok (run s ops) = true.
Proof.
  induction ops as [|o ops IH]; intros s Hok; [done|].
  apply IH, step_ok, Hok.
Qed.

(** X2: every store a history builds from the empty one is well formed:
    each requirement entry is filed under the id of its record, with the
    text of the requirement as its document. *)
Theorem reachable_requirements_ok ops :
  requirements_ok (run (empty_store (Embedding:=Embedding)) ops) = true.
Proof. apply run_ok, empty_store_ok. Qed.

(** X1: [get_current_requirement] finds a record exactly when
    [get_requirement] finds it and its [superseded_at] is null. *)
Theorem get_current_requirement_active s req_id r :
  get_current_requirement s req_id = Some r
  ↔ get_requirement s req_id = Some r ∧ Requirement.superseded_at r = None.
Proof.
  unfold get_current_requirement. rewrite get_requirement_lookup, get_one.
  destruct (requirements s !! req_id) as [entry|]; simpl;
    [|split; [done | by intros [? _]]].
  destruct (Requirement.superseded_at (metadata entry)) as [ts|] eqn:Hsup; simpl.
  - split; [done|]. intros [[= <-] Hnone]. congruence.
  - split; [by intros [= <-] | by intros [[= <-] _]].
Qed.

(** One step of a history that keeps [req_id] superseded. *)
Lemma step_keeps_superseded s o req_id r :
  keeps_superseded req_id o = true →
  get_requirement s req_id = Some r →
  Requirement.superseded_at r ≠ None →
  ∃ r', get_requirement (step s o) req_id = Some r'
        ∧ Requirement.superseded_at r' ≠ None.
Proof.
  intros Hkeep Hget Hsup. destruct o as [req e|k now|impl e|? ? ? ? ? ?]; simpl.
  - rewrite get_requirement_lookup. simpl. unfold Chroma.upsert.
    rewrite lookup_insert. case_decide as Hid.
    + exists req. split; [done|]. simpl in Hkeep.
      apply String.eqb_eq in Hid. rewrite Hid in Hkeep. simpl in Hkeep.
      by destruct (Requirement.superseded_at req).
    + rewrite <- get_requirement_lookup. eauto.
  - rewrite supersede_requirement_unfold.
    destruct (requirements s !! k) as [entry|]; [|eauto].
    destruct (PyStr.truthy _); [eauto|].
    rewrite get_requirement_lookup. simpl. unfold Chroma.upsert.
    rewrite lookup_insert. case_decide as Hid.
    + eexists. split; [reflexivity|]. done.
    + rewrite <- get_requirement_lookup. eauto.
  - eauto.
  - eauto.
Qed.

Lemma run_keeps_superseded ops : ∀ s req_id r,
  forallb (keeps_superseded req_id) ops = true →
  get_requirement s req_id = Some r →
  Requirement.superseded_at r ≠ None →
  ∃ r', get_requirement (run s ops) req_id = Some r'
        ∧ Requirement.superseded_at r' ≠ None.
Proof.
  induction ops as [|o ops IH]; intros s req_id r Hall Hget Hsup; [eauto|].
  simpl in Hall. apply andb_prop in Hall as [Ho Hall].
  destruct (step_keeps_superseded s o req_id r Ho Hget Hsup) as (r' & Hget' & Hsup').
  exact (IH _ _ _ Hall Hget' Hsup').
Qed.

(** After [supersede_requirement] an existing requirement is superseded. *)
Lemma supersede_requirement_superseded s req_id now r :
  requirements_ok s = true →
  get_requirement s req_id = Some r →
  ∃ r', get_requirement (supersede_requirement s req_id now) req_id = Some r'
        ∧ Requirement.superseded_at r' ≠ None.
Proof.
  intros Hok Hget. rewrite supersede_requirement_unfold.
  apply get_requirement_Some in Hget as (entry & Hlook & <-).
  rewrite Hlook. destruct (PyStr.truthy _) eqn:Htruthy.
  - exists (metadata entry). split; [|by apply truthy_not_None].
    apply get_requirement_Some. eauto.
  - destruct (requirements_ok_lookup s req_id entry Hok Hlook) as [Hid _].
    rewrite get_requirement_lookup. simpl. unfold Chroma.upsert.
    rewrite Hid, lookup_insert_eq. eexists. split; [reflexivity|done].
Qed.

(** C1, as amended: a requirement whose [superseded_at] is set keeps it
    set along every history of the store in which no [add_requirement]
    files a record with the same id and a null [superseded_at]; and
    after [supersede_requirement] on an existing requirement of a
    well-formed store, [superseded_at] is set and stays set along every
    such history. *)
Theorem superseded_at_stays_set s req_id ops :
  forallb (keeps_superseded req_id) ops = true →
  (∀ r, get_requirement s req_id = Some r →
        Requirement.superseded_at r ≠ None →
        ∃ r', get_requirement (run s ops) req_id = Some r'
              ∧ Requirement.superseded_at r' ≠ None)
  ∧ (∀ now r, requirements_ok s = true →
        get_requirement s req_id = Some r →
        ∃ r', get_requirement (run (supersede_requirement s req_id now) ops) req_id
              = Some r'
              ∧ Requirement.superseded_at r' ≠ None).
Proof.
  intros Hops. split.
  - intros r Hget Hsup. by apply (run_keeps_superseded ops s req_id r).
  - intros now r Hok Hget.
    destruct (supersede_requirement_superseded s req_id now r Hok Hget)
      as (r1 & Hget1 & Hsup1).
    by apply (run_keeps_superseded ops _ req_id r1).
Qed.


(** On a store of the data model a [superseded_at] is true exactly when
    it is not null. *)
Lemma superseded_at_ok_lookup s req_id entry :
  superseded_at_ok s = true →
  requirements s !! req_id = Some entry →
  superseded_at_value_ok (Requirement.superseded_at (metadata entry)) = true.
Proof.
  unfold superseded_at_ok. rewrite forallb_forall. intros Hall Hlook.
  apply (Hall (req_id, entry)).
  by rewrite <- list_elem_of_In, elem_of_map_to_list.
Qed.

Lemma truthy_superseded_at (v : option string) :
  superseded_at_value_ok v = true →
  PyStr.truthy v = negb (PyStr.is_none v).
Proof. by destruct v as [ts|]. Qed.

(** The data model of [superseded_at] is kept by every operation whose
    arguments keep to it. *)
Lemma empty_store_superseded_at_ok :
  superseded_at_ok (empty_store (Embedding:=Embedding)) = true.
Proof. reflexivity. Qed.

Lemma add_requirement_superseded_at_ok s req (e : Embedding) :
  superseded_at_value_ok (Requirement.superseded_at req) = true →
  superseded_at_ok s = true →
  superseded_at_ok (add_requirement s req e) = true.
Proof.
  intros Hreq Hok. unfold superseded_at_ok. apply forallb_forall.
  intros [k entry] Hin. apply list_elem_of_In, elem_of_map_to_list in Hin.
  simpl in Hin. unfold Chroma.upsert in Hin.
  rewrite lookup_insert in Hin. case_decide as Hk.
  - by injection Hin as <-.
  - by apply (superseded_at_ok_lookup s k entry).
Qed.

Lemma step_superseded_at_ok s o :
  timestamps_ok o = true →
  superseded_at_ok s = true → superseded_at_ok (step s o) = true.
Proof.
  destruct o as [req e|k now|impl e|? ? ? ? ? ?]; simpl; intros Hts Hok; try done.
  - by apply add_requirement_superseded_at_ok.
  - rewrite supersede_requirement_unfold.
    destruct (requirements s !! k) as [entry|]; [|done].
    destruct (PyStr.truthy _); [done|].
    by apply add_requirement_superseded_at_ok.
Qed.

Lemma run_superseded_at_ok ops : ∀ s,
  forallb timestamps_ok ops = true →
  superseded_at_ok s = true → superseded_at_ok (run s ops) = true.
Proof.
  induction ops as [|o ops IH]; intros s Hall Hok; [done|].
  simpl in Hall. apply andb_prop in Hall as [Ho Hall].
  apply IH; [done|]. by apply step_superseded_at_ok.
Qed.

(** X28: in every store a history builds from the empty one with records
    and times of the data model, no [superseded_at] is the empty string:
    a requirement is superseded exactly when its [superseded_at] is
    true. *)
Theorem reachable_superseded_at_ok ops :
  forallb timestamps_ok ops = true →
  superseded_at_ok (run (empty_store (Embedding:=Embedding)) ops) = true
  ∧ ∀ req_id r, get_requirement (run empty_store ops) req_id = Some r →
      PyStr.truthy (Requirement.superseded_at r)
      = negb (PyStr.is_none (Requirement.superseded_at r)).
Proof.
  intros Hops.
  pose proof (run_superseded_at_ok ops empty_store Hops empty_store_superseded_at_ok)
    as Hok.
  split; [done|]. intros req_id r Hget.
  apply get_requirement_Some in Hget as (entry & Hlook & <-).
  apply truthy_superseded_at. exact (superseded_at_ok_lookup _ req_id entry Hok Hlook).
Qed.


(** C4: superseding an active requirement of a well-formed store changes
    [superseded_at] and nothing else: the other six fields, the document
    and the embedding of the entry are as before, the collection holds
    the same ids and the same entries under every other id, and the
    other two collections are untouched. *)
Theorem supersede_requirement_frame s req_id now entry :
  requirements_ok s = true →
  requirements s !! req_id = Some entry →
  Requirement.superseded_at (metadata entry) = None →
  let s' := supersede_requirement s req_id now in
  (∃ entry', requirements s' !! req_id = Some entry'
     ∧ Requirement.superseded_at (metadata entry') = Some now
     ∧ Requirement.id (metadata entry') = Requirement.id (metadata entry)
     ∧ Requirement.domain (metadata entry') = Requirement.domain (metadata entry)
     ∧ Requirement.value (metadata entry') = Requirement.value (metadata entry)
     ∧ Requirement.source_msg_id (metadata entry')
       = Requirement.source_msg_id (metadata entry)
     ∧ Requirement.source_session (metadata entry')
       = Requirement.source_session (metadata entry)
     ∧ Requirement.timestamp (metadata entry') = Requirement.timestamp (metadata entry)
     ∧ document entry' = document entry
     ∧ embedding entry' = embedding entry)
  ∧ dom (requirements s') = dom (requirements s)
  ∧ (∀ k, k ≠ req_id → requirements s' !! k = requirements s !! k)
  ∧ implementations s' = implementations s
  ∧ chat_messages s' = chat_messages s.
Proof.
  intros Hok Hlook Hactive s'. subst s'.
  rewrite supersede_requirement_unfold, Hlook, Hactive. simpl.
  destruct (requirements_ok_lookup s req_id entry Hok Hlook) as [Hid Hdoc].
  unfold Chroma.upsert. rewrite Hid. split; [|split; [|split]].
  - eexists. rewrite lookup_insert_eq. split; [reflexivity|].
    simpl. by rewrite Hdoc.
  - apply dom_insert_lookup_L. eauto.
  - intros k Hk. by rewrite lookup_insert_ne.
  - done.
Qed.

(** [get()] lists exactly what lookups find. *)
Lemma elem_of_list_requirements_all s r :
  r ∈ list_requirements s true ↔ ∃ req_id, get_requirement s req_id = Some r.
Proof.
  unfold list_requirements, Chroma.get_all. simpl.
  rewrite list_elem_of_fmap. split.
  - intros ([k e] & -> & Hin). apply elem_of_map_to_list in Hin.
    exists k. apply get_requirement_Some. eauto.
  - intros (k & Hget). apply get_requirement_Some in Hget as (e & Hlook & <-).
    exists (k, e). split; [done|]. by apply elem_of_map_to_list.
Qed.

Lemma list_requirements_active s :
  list_requirements s false
  = filter (λ r, Requirement.superseded_at r = None) (list_requirements s true).
Proof. reflexivity. Qed.

(** C5: [list_requirements(include_superseded=True)] returns every stored
    requirement, one per entry; [list_requirements(include_superseded=False)]
    returns exactly the stored requirements whose [superseded_at] is
    null, in the same order; a requirement in the first list and not in
    the second is superseded. *)
Theorem list_requirements_filtering s :
  (∀ r, r ∈ list_requirements s true ↔ ∃ req_id, get_requirement s req_id = Some r)
  ∧ length (list_requirements s true) = size (requirements s)
  ∧ (∀ r, r ∈ list_requirements s false
          ↔ (∃ req_id, get_requirement s req_id = Some r)
            ∧ Requirement.superseded_at r = None)
  ∧ list_requirements s false `sublist_of` list_requirements s true
  ∧ (∀ r, r ∈ list_requirements s true → r ∉ list_requirements s false →
          Requirement.superseded_at r ≠ None).
Proof.
  split; [apply elem_of_list_requirements_all|].
  split.
  { unfold list_requirements, Chroma.get_all. simpl.
    by rewrite length_fmap, length_map_to_list. }
  split.
  { intros r. rewrite list_requirements_active, list_elem_of_filter.
    rewrite elem_of_list_requirements_all. tauto. }
  split.
  { rewrite list_requirements_active. apply sublist_filter. }
  intros r Hall Hnot Hactive. apply Hnot.
  rewrite list_requirements_active, list_elem_of_filter. done.
Qed.

(** Ranking permutes the candidates. *)
Lemma rank_insert_perm {M} (x : string * Entry Embedding M * Distance) l :
  Chroma.rank_insert dist_leb x l ≡ₚ x :: l.
Proof.
  induction l as [|y l IH]; simpl; [done|].
  destruct (dist_leb _ _); [done|]. rewrite IH. apply Permutation_swap.
Qed.

Lemma rank_perm {M} (l : list (string * Entry Embedding M * Distance)) :
  Chroma.rank dist_leb l ≡ₚ l.
Proof.
  induction l as [|x l IH]; simpl; [done|].
  by rewrite rank_insert_perm, IH.
Qed.

(** [query] refuses [n = 0] and otherwise returns the nearest entries. *)
Lemma query_zero {M} (c : gmap string (Entry Embedding M)) q :
  Chroma.query distance dist_leb c q 0 = Raise TypeError.
Proof. reflexivity. Qed.

Lemma query_Return {M} (c : gmap string (Entry Embedding M)) q n :
  n ≠ 0 →
  Chroma.query distance dist_leb c q n = Return (Chroma.nearest distance dist_leb c q n).
Proof. intros Hn. unfold Chroma.query. by destruct n. Qed.

(** Every result of a query is an entry of the collection with its
    distance to the query. *)
Lemma elem_of_nearest {M} (c : gmap string (Entry Embedding M)) q n i e d :
  (i, e, d) ∈ Chroma.nearest distance dist_leb c q n →
  c !! i = Some e ∧ d = distance q (embedding e).
Proof.
  unfold Chroma.nearest. intros Hin.
  pose proof (elem_of_sublist _ _ _ Hin (sublist_take _ _)) as Hin'.
  rewrite rank_perm in Hin'.
  apply list_elem_of_fmap in Hin' as ([k e'] & Heq & Hin').
  apply elem_of_map_to_list in Hin'. simpl in Heq.
  by inversion Heq; subst.
Qed.

Lemma search_requirements_Return s q n :
  n ≠ 0 →
  search_requirements distance dist_leb s q n
  = Return ((λ x, mkRequirementHit x.1.1 (metadata x.1.2) (Some x.2))
              <$> Chroma.nearest distance dist_leb (requirements s) q n).
Proof. intros Hn. unfold search_requirements. by rewrite query_Return. Qed.

Lemma search_requirements_active_Return s q n :
  n ≠ 0 →
  search_requirements_active distance dist_leb s q n
  = Return (filter (λ h, Requirement.superseded_at (hit_requirement h) = None)
              ((λ x, mkRequirementHit x.1.1 (metadata x.1.2) (Some x.2))
                 <$> Chroma.nearest distance dist_leb (requirements s) q n)).
Proof.
  intros Hn. unfold search_requirements_active.
  by rewrite search_requirements_Return.
Qed.

(** C2: no suggestion of auto-detect is a superseded requirement. For a
    positive number of results the search and the filter return, and
    each suggestion is the stored record of its id, with a null
    [superseded_at]; a search result whose requirement is superseded is
    left out whatever its rank; the suggestions are the search results
    that are active, in the order of the search. Asked for no result,
    the search raises [TypeError] and there is no list of suggestions. *)
Theorem search_requirements_active_excludes_superseded s q n :
  (n = 0 →
   search_requirements distance dist_leb s q n = Raise TypeError
   ∧ search_requirements_active distance dist_leb s q n = Raise TypeError)
  ∧ (n ≠ 0 →
     ∃ hits active,
       search_requirements distance dist_leb s q n = Return hits
       ∧ search_requirements_active distance dist_leb s q n = Return active
       ∧ (∀ h, h ∈ active →
             get_requirement s (hit_id h) = Some (hit_requirement h)
             ∧ Requirement.superseded_at (hit_requirement h) = None)
       ∧ (∀ h, h ∈ hits → Requirement.superseded_at (hit_requirement h) ≠ None →
               h ∉ active)
       ∧ active `sublist_of` hits
       ∧ (∀ h, h ∈ hits → Requirement.superseded_at (hit_requirement h) = None →
               h ∈ active)).
Proof.
  split; [by intros ->|]. intros Hn.
  eexists _, _.
  split; [by apply search_requirements_Return|].
  split; [by apply search_requirements_active_Return|].
  split; [|split; [|split]].
  - intros h Hin. apply list_elem_of_filter in Hin as [Hactive Hin].
    split; [|done].
    apply list_elem_of_fmap in Hin as ([[i e] d] & -> & Hin).
    apply elem_of_nearest in Hin as [Hlook _]. simpl.
    apply get_requirement_Some. eauto.
  - intros h _ Hsup Hin. by apply list_elem_of_filter in Hin as [? _].
  - apply sublist_filter.
  - intros h Hin Hactive. by apply list_elem_of_filter.
Qed.
End RequirementFacts.

(** ** The implementation registry *)

Section ImplementationFacts.
Context {Embedding : Type}.
Context (sha256_hexdigest : string → string).

Implicit Types (s : LoomStore Embedding) (impl : Implementation.t)
  (meta : ImplMeta.t) (req_id : Unicode.str) (impl_id : string).

Lemma decode_impl_of_impl impl : decode_impl (ImplMeta.of_impl impl) = Return impl.
Proof.
  unfold decode_impl, ImplMeta.of_impl. simpl. rewrite loads_dumps. simpl.
  by destruct impl.
Qed.

Lemma get_implementation_lookup s impl_id :
  get_implementation s impl_id
  = match implementations s !! impl_id with
    | Some entry => impl ←! decode_impl (metadata entry); Return (Some impl)
    | None => Return None
    end.
Proof.
  unfold get_implementation.
  replace (Chroma.get (implementations s) [impl_id])
    with (match implementations s !! impl_id with
          | Some e => [(impl_id, e)] | None => [] end).
  - by destruct (implementations s !! impl_id).
  - unfold Chroma.get. simpl. by destruct (implementations s !! impl_id).
Qed.

Lemma get_implementation_Some s impl_id impl :
  get_implementation s impl_id = Return (Some impl)
  ↔ ∃ entry, implementations s !! impl_id = Some entry
             ∧ decode_impl (metadata entry) = Return impl.
Proof.
  rewrite get_implementation_lookup. split.
  - destruct (implementations s !! impl_id) as [entry|]; [|done].
    destruct (decode_impl (metadata entry)) as [impl'| |] eqn:Hdec; [|done..].
    simpl. intros [= ->]. eauto.
  - intros (entry & -> & ->). done.
Qed.

Lemma get_implementation_upsert s impl (e : Embedding) :
  get_implementation (add_implementation s impl e) (Implementation.id impl)
  = Return (Some impl).
Proof.
  rewrite get_implementation_lookup. simpl. unfold Chroma.upsert.
  rewrite lookup_insert_eq. simpl. by rewrite decode_impl_of_impl.
Qed.

(** C8: an implementation read back under its id right after
    [add_implementation] is the record that was added; its [satisfies]
    list comes back from its JSON text entry by entry, whatever
    characters the text of the links holds. *)
Theorem get_implementation_add_implementation s impl (e : Embedding) :
  get_implementation (add_implementation s impl e) (Implementation.id impl)
  = Return (Some impl)
  ∧ Json.loads (Json.dumps (Implementation.satisfies impl))
    = Return (Implementation.satisfies impl).
Proof.
  split; [apply get_implementation_upsert | apply loads_dumps].
Qed.

Lemma implementations_ok_lookup s impl_id entry :
  implementations_ok s = true →
  implementations s !! impl_id = Some entry →
  ∃ impl, decode_impl (metadata entry) = Return impl.
Proof.
  unfold implementations_ok. rewrite forallb_forall. intros Hall Hlook.
  specialize (Hall (impl_id, entry)).
  rewrite <- list_elem_of_In, elem_of_map_to_list in Hall.
  specialize (Hall Hlook). unfold implementation_entry_ok in Hall.
  unfold decode_impl. simpl in Hall.
  destruct (Json.loads _) as [links| |]; [|done..]. simpl. eauto.
Qed.

(** The stored [satisfies] texts decode along every history. *)
Lemma empty_store_implementations_ok :
  implementations_ok (empty_store (Embedding:=Embedding)) = true.
Proof. reflexivity. Qed.

Lemma add_implementation_ok s impl (e : Embedding) :
  implementations_ok s = true →
  implementations_ok (add_implementation s impl e) = true.
Proof.
  intros Hok. unfold implementations_ok. apply forallb_forall.
  intros [k entry] Hin. apply list_elem_of_In, elem_of_map_to_list in Hin.
  simpl in Hin. unfold Chroma.upsert in Hin.
  rewrite lookup_insert in Hin. case_decide as Hk.
  - injection Hin as <-. unfold implementation_entry_ok. simpl.
    by rewrite loads_dumps.
  - destruct (implementations_ok_lookup s k entry Hok Hin) as [impl' Hdec].
    unfold implementation_entry_ok, decode_impl in *. simpl.
    by destruct (Json.loads _).
Qed.

Lemma step_implementations_ok s (o : Op Embedding) :
  implementations_ok s = true → implementations_ok (step s o) = true.
Proof.
  destruct o as [req e|k now|impl e|? ? ? ? ? ?]; simpl; intros Hok.
  - done.
  - unfold implementations_ok in *.
    replace (implementations (supersede_requirement s k now))
      with (implementations s); [done|].
    rewrite supersede_requirement_unfold.
    destruct (requirements s !! k) as [entry|]; [|done].
    by destruct (PyStr.truthy _).
  - by apply add_implementation_ok.
  - done.
Qed.




Lemma run_implementations_ok (ops : list (Op Embedding)) : ∀ s,
  implementations_ok s = true → implementations_ok (run s ops) = true.
Proof.
  induction ops as [|o ops IH]; intros s Hok; [done|].
  apply IH, step_implementations_ok, Hok.
Qed.

(** X3: every store a history builds from the empty one holds [satisfies]
    texts that decode. *)
Theorem reachable_implementations_ok (ops : list (Op Embedding)) :
  implementations_ok (run (empty_store (Embedding:=Embedding)) ops) = true.
Proof. apply run_implementations_ok, empty_store_implementations_ok. Qed.

(** X4: the scenario of [test_detect_drift_when_linked_req_superseded],
    for any store and records: once a requirement is added, an implementation
    whose first link names it is added and the requirement is superseded,
    the implementation reads back unchanged, its first link still names
    the requirement, and the requirement reads back superseded. *)
Theorem drift_after_supersede s (req : Requirement.t) impl (version : Unicode.str)
    (now : string) (e1 e2 : Embedding) :
  let link := Link.mk (Requirement.id req) version in
  let impl' :=
    Implementation.mk (Implementation.id impl) (Implementation.file impl)
      (Implementation.lines impl) (Implementation.content impl)
      (Implementation.content_hash impl) (Implementation.timestamp impl)
      (link :: Implementation.satisfies impl) in
  let s' :=
    supersede_requirement
      (add_implementation (add_requirement s req e1) impl' e2)
      (Requirement.id req) now in
  get_implementation s' (Implementation.id impl') = Return (Some impl')
  ∧ Link.req_id <$> head (Implementation.satisfies impl')
    = Some (Unicode.of_string (Requirement.id req))
  ∧ ∃ r, get_requirement s' (Requirement.id req) = Some r
         ∧ Requirement.superseded_at r ≠ None.
Proof.
  intros link impl' s'. subst s'.
  set (s2 := add_implementation (add_requirement s req e1) impl' e2).
  assert (requirements s2 !! Requirement.id req
          = Some (mkEntry e1 req (Requirement.value req))) as Hlook.
  { subst s2. simpl. unfold Chroma.upsert. by rewrite lookup_insert_eq. }
  rewrite supersede_requirement_unfold, Hlook. simpl.
  destruct (PyStr.truthy (Requirement.superseded_at req)) eqn:Htruthy.
  - split; [|split; [done|]].
    + apply (get_implementation_upsert (add_requirement s req e1) impl' e2).
    + exists req. split; [|by apply truthy_not_None].
      apply get_requirement_Some. eauto.
  - split; [|split; [done|]].
    + rewrite get_implementation_lookup. simpl. unfold Chroma.upsert.
      rewrite lookup_insert_eq. simpl. by rewrite decode_impl_of_impl.
    + exists (Requirement.set_superseded_at req (Some now)). split; [|done].
      rewrite get_requirement_lookup. simpl. unfold Chroma.upsert.
      by rewrite lookup_insert_eq.
Qed.

(** C10: [generate_impl_id] depends on the file and the lines only, so
    two links of one location carry one id whatever their content; the
    second [add_implementation] replaces the record of the first: the
    id then reads back as the second record, the collection has the
    ids and the size it had after the first add, and every other entry
    is as it was. *)
Theorem relink_replaces s (file lines : string)
    (content1 hash1 time1 : string) (links1 : list Link.t) (e1 : Embedding)
    (content2 hash2 time2 : string) (links2 : list Link.t) (e2 : Embedding) :
  let impl1 := Implementation.mk (generate_impl_id sha256_hexdigest file lines)
                 file lines content1 hash1 time1 links1 in
  let impl2 := Implementation.mk (generate_impl_id sha256_hexdigest file lines)
                 file lines content2 hash2 time2 links2 in
  let s1 := add_implementation s impl1 e1 in
  let s2 := add_implementation s1 impl2 e2 in
  Implementation.id impl1 = Implementation.id impl2
  ∧ get_implementation s2 (generate_impl_id sha256_hexdigest file lines)
    = Return (Some impl2)
  ∧ dom (implementations s2) = dom (implementations s1)
  ∧ Chroma.count (implementations s2) = Chroma.count (implementations s1)
  ∧ (∀ k, k ≠ generate_impl_id sha256_hexdigest file lines →
          implementations s2 !! k = implementations s !! k).
Proof.
  intros impl1 impl2 s1 s2.
  assert (dom (implementations s2) = dom (implementations s1)) as Hdom.
  { subst s2 s1. simpl. unfold Chroma.upsert. simpl.
    by rewrite insert_insert_eq, !dom_insert_L. }
  split; [done|]. split; [|split; [|split]].
  - apply (get_implementation_upsert s1 impl2 e2).
  - done.
  - unfold Chroma.count. by rewrite <- !size_dom, Hdom.
  - intros k Hk. subst s2 s1. simpl. unfold Chroma.upsert. simpl.
    by rewrite !lookup_insert_ne.
Qed.
End ImplementationFacts.

(** ** The test-spec registry *)

Section TestSpecFacts.
Import PyStr TestSpecs.
Implicit Types (st : TestSpecStore) (req_id line content tok : string)
  (ids : gset string).

(** C6: [is_private] answers true exactly when the id is in the set read
    from the annotation file or the spec stored for the id has
    [private] set; in particular it answers false for an id outside the
    set that has no spec. *)
Theorem is_private_or st req_id :
  (is_private st req_id = true
   ↔ req_id ∈ _private_ids st
     ∨ ∃ spec, get_spec st req_id = Some spec ∧ TestSpec.private spec = true)
  ∧ (req_id ∉ _private_ids st → get_spec st req_id = None →
     is_private st req_id = false).
Proof.
  unfold is_private, get_spec. split.
  - case_bool_decide as Hin.
    + split; [by left | done].
    + destruct (_specs st !! req_id) as [spec|].
      * split; [by right; eauto|]. by intros [? | (? & [= <-] & ?)].
      * split; [done|]. by intros [? | (? & ? & _)].
  - intros Hnot ->. by case_bool_decide.
Qed.

Lemma prefix_inv (p s : string) :
  String.prefix p s = true → ∃ rest, s = p +:+ rest.
Proof.
  revert s. induction p as [|c p IH]; intros s Hp.
  - exists s. reflexivity.
  - destruct s as [|d s]; [done|]. simpl in Hp.
    destruct (ascii_dec c d) as [->|]; [|done].
    destruct (IH s Hp) as [rest ->]. by exists rest.
Qed.

(** A text that starts with a character that is not whitespace has a
    first token. *)
Lemma split_head (c : ascii) (s : string) :
  isspace c = false → ∃ tok toks, split (String c s) = tok :: toks.
Proof.
  intros Hc. cbn [split]. rewrite Hc.
  destruct s as [|d s]; [eauto|].
  destruct (isspace d); [eauto|].
  destruct (split (String d s)); eauto.
Qed.

Lemma split_bullet (b : ascii) (rest : string) :
  isspace b = false →
  ∃ tok, split (String b (String " " (String "R" rest))) !! 1 = Some tok.
Proof.
  intros Hb.
  destruct (split_head "R" rest eq_refl) as (tok & toks & Hsplit).
  exists tok.
  change (split (String b (String " " (String "R" rest))))
    with (if isspace b then split (String " " (String "R" rest))
          else String b "" :: split (String "R" rest)).
  by rewrite Hb, Hsplit.
Qed.

(** The lookups of [_load_private] never leave the token list. *)
Lemma bullet_line_token line :
  startswith line "- REQ-" || startswith line "* REQ-" = true →
  ∃ tok, split line !! 1 = Some tok.
Proof.
  intros [Hp|Hp]%orb_prop; apply prefix_inv in Hp as [rest ->];
    by apply split_bullet.
Qed.

Lemma bare_line_token line :
  startswith line "REQ-" = true → ∃ tok, split line !! 0 = Some tok.
Proof.
  intros Hp. apply prefix_inv in Hp as [rest ->].
  destruct (split_head "R" ("EQ-" +:+ rest) eq_refl) as (tok & toks & Hsplit).
  exists tok. change ("REQ-" +:+ rest) with (String "R" ("EQ-" +:+ rest)).
  by rewrite Hsplit.
Qed.

(** The identifier a stripped line declares, if any. *)
Lemma load_private_line_spec ids raw :
  ∃ ids', load_private_line ids raw = Return ids'
    ∧ ∀ x, x ∈ ids'
           ↔ x ∈ ids
             ∨ ∃ tok,
                 ((startswith (strip raw) "- REQ-" = true
                   ∨ startswith (strip raw) "* REQ-" = true)
                  ∧ split (strip raw) !! 1 = Some tok
                  ∨ startswith (strip raw) "REQ-" = true
                    ∧ split (strip raw) !! 0 = Some tok)
                 ∧ x = rstrip ":," tok.
Proof.
  unfold load_private_line. set (line := strip raw).
  destruct (startswith line "- REQ-" || startswith line "* REQ-") eqn:Hbullet.
  - destruct (bullet_line_token line Hbullet) as [tok Htok].
    unfold index. rewrite Htok. simpl. eexists. split; [reflexivity|].
    intros x. rewrite elem_of_union, elem_of_singleton.
    apply orb_prop in Hbullet. split.
    + intros [-> | Hin]; [right | by left]. exists tok. by split; [left|].
    + intros [Hin | (tok' & [[_ Htok'] | [Hbare _]] & ->)].
      * by right.
      * left. congruence.
      * exfalso. apply prefix_inv in Hbare as [rest Hline].
        destruct Hbullet as [Hp|Hp]; apply prefix_inv in Hp as [rest' Hline'];
          rewrite Hline in Hline'; discriminate.
  - apply orb_false_elim in Hbullet as [Hdash Hstar].
    destruct (startswith line "REQ-") eqn:Hbare.
    + destruct (bare_line_token line Hbare) as [tok Htok].
      unfold index. rewrite Htok. simpl. eexists. split; [reflexivity|].
      intros x. rewrite elem_of_union, elem_of_singleton. split.
      * intros [-> | Hin]; [right | by left]. exists tok. by split; [right|].
      * intros [Hin | (tok' & [[[Hp|Hp] _] | [_ Htok']] & ->)];
          [by right | congruence | congruence | left; congruence].
    + eexists. split; [reflexivity|]. intros x. split; [by left|].
      intros [Hin | (tok' & [[[Hp|Hp] _] | [Hp _]] & _)]; [done | congruence..].
Qed.

Lemma load_private_lines_spec lines : ∀ ids,
  ∃ ids', load_private_lines ids lines = Return ids'
    ∧ ∀ x, x ∈ ids'
           ↔ x ∈ ids
             ∨ ∃ raw tok, raw ∈ lines
                 ∧ ((startswith (strip raw) "- REQ-" = true
                     ∨ startswith (strip raw) "* REQ-" = true)
                    ∧ split (strip raw) !! 1 = Some tok
                    ∨ startswith (strip raw) "REQ-" = true
                      ∧ split (strip raw) !! 0 = Some tok)
                 ∧ x = rstrip ":," tok.
Proof.
  induction lines as [|raw lines IH]; intros ids.
  - exists ids. split; [done|]. intros x. split; [by left|].
    by intros [? | (? & ? & ?%elem_of_nil & _)].
  - destruct (load_private_line_spec ids raw) as (ids1 & Hline & Hids1).
    destruct (IH ids1) as (ids' & Hrest & Hids').
    exists ids'. cbn [load_private_lines]. rewrite Hline. simpl.
    split; [done|]. intros x. rewrite Hids', Hids1. split.
    + intros [[Hin | (tok & Hcase & ->)] | (raw' & tok & Hin & Hcase & ->)].
      * by left.
      * right. exists raw, tok. split; [left|]; done.
      * right. exists raw', tok. split; [by right|done].
    + intros [Hin | (raw' & tok & Hin & Hcase & ->)]; [by left; left|].
      apply elem_of_cons in Hin as [-> | Hin].
      * left. right. eauto.
      * right. eauto.
Qed.

(** C7, as amended: [_load_private] never raises and changes the set of
    private ids only. A line that, once stripped, begins with [- REQ-] or
    [* REQ-] adds its second token without its trailing colons and
    commas; a stripped line that begins with [REQ-] adds its first token
    likewise; no other line adds anything. *)
Theorem load_private_ids st content :
  ∃ ids, _load_private st content = Return (mkTestSpecStore (_specs st) ids)
    ∧ ∀ x, x ∈ ids
           ↔ x ∈ _private_ids st
             ∨ ∃ raw tok, raw ∈ split_on newline content
                 ∧ ((startswith (strip raw) "- REQ-" = true
                     ∨ startswith (strip raw) "* REQ-" = true)
                    ∧ split (strip raw) !! 1 = Some tok
                    ∨ startswith (strip raw) "REQ-" = true
                      ∧ split (strip raw) !! 0 = Some tok)
                 ∧ x = rstrip ":," tok.
Proof.
  destruct (load_private_lines_spec (split_on newline content) (_private_ids st))
    as (ids & Hload & Hids).
  exists ids. unfold _load_private. rewrite Hload. done.
Qed.

Lemma specs_ok_lookup st req_id (spec : TestSpec.t) :
  specs_ok st = true → _specs st !! req_id = Some spec → TestSpec.req_id spec = req_id.
Proof.
  unfold specs_ok. rewrite forallb_forall. intros Hall Hlook.
  specialize (Hall (req_id, spec)).
  rewrite <- list_elem_of_In, elem_of_map_to_list in Hall.
  by apply String.eqb_eq, Hall.
Qed.

Lemma add_spec_ok st (spec : TestSpec.t) :
  specs_ok st = true → specs_ok (add_spec st spec) = true.
Proof.
  intros Hok. unfold specs_ok. apply forallb_forall.
  intros [k v] Hin. apply list_elem_of_In, elem_of_map_to_list in Hin.
  simpl in Hin. rewrite lookup_insert in Hin. case_decide as Hk.
  - injection Hin as <-. simpl. by apply String.eqb_eq.
  - simpl. by apply String.eqb_eq, (specs_ok_lookup st k v).
Qed.

(** X5: [list_specs(include_private=False)] and [is_private] agree: when every
    spec is filed under its own id, the public listing holds exactly the
    stored specs whose requirement [is_private] reports public. *)
Theorem list_specs_public st (spec : TestSpec.t) :
  specs_ok st = true →
  spec ∈ list_specs st false
  ↔ (∃ req_id, get_spec st req_id = Some spec)
    ∧ is_private st (TestSpec.req_id spec) = false.
Proof.
  intros Hok. unfold list_specs, get_spec, is_private. simpl.
  rewrite list_elem_of_filter, list_elem_of_fmap. split.
  - intros [[Hnot Hflag] ([k v] & -> & Hin)]. simpl in *.
    apply elem_of_map_to_list in Hin. split; [eauto|].
    rewrite bool_decide_eq_false_2 by done.
    rewrite <- (specs_ok_lookup st k v Hok Hin) in Hin. by rewrite Hin.
  - intros [(k & Hlook) Hpub].
    pose proof (specs_ok_lookup st k spec Hok Hlook) as Hid.
    case_bool_decide as Hin; [done|]. rewrite Hid, Hlook in Hpub.
    split; [done|]. exists (k, spec). split; [done|].
    by apply elem_of_map_to_list.
Qed.
End TestSpecFacts.

(** * The claims on the sample data *)

Section Samples.
Import PyStr TestSpecs.

(** The scenario of [test_list_requirements_excludes_superseded_by_default]. *)
Example list_requirements_sample :
  list_requirements store_superseded false = [req_new]
  ∧ length (list_requirements store_superseded true) = 2.
Proof. split; reflexivity. Qed.

(** The scenario of [test_search_active_excludes_superseded]. *)
Example search_requirements_active_sample :
  search_requirements_active squared_distance Z.leb store_superseded sample_embedding 5
  = Return [mkRequirementHit "REQ-002" req_new (Some 0%Z)].
Proof. reflexivity. Qed.

(** The escapes of [json.dumps]: four hexadecimal digits, and a
    surrogate pair above FFFF. *)
Example escape_sample :
  Json.escape (Unicode.of_string "REQ-" ++ [check_mark; grinning_face])%list
  = "REQ-" +:+ String backslash "u2713"
    +:+ String backslash "ud83d" +:+ String backslash "ude00".
Proof. reflexivity. Qed.

Example loads_sample :
  Json.loads satisfies_by_hand
  = Return [Link.mk (Unicode.of_string "REQ-" ++ [check_mark; grinning_face])%list "v/1"]
  ∧ Json.loads "[1]" = Outside
  ∧ Json.loads ("[{" +:+ quoted "req_id" +:+ ": " +:+ quoted "REQ-001" +:+ "}]")
    = Outside.
Proof. repeat split; reflexivity. Qed.

(** A link outside the ASCII range, written and read back. *)
Example get_implementation_unicode_sample :
  get_implementation
    (add_implementation store_linked impl_unicode sample_embedding) "IMPL-004"
  = Return (Some impl_unicode)
  ∧ get_implementations_for_requirement
      (add_implementation store_linked impl_unicode sample_embedding)
      (Unicode.of_string "REQ-" ++ [check_mark])%list
    = Return [impl_unicode].
Proof. split; reflexivity. Qed.

(** The scenario of [test_search_currently_includes_superseded], and a
    search asked for no result. *)
Example search_requirements_sample :
  search_requirements squared_distance Z.leb store_superseded sample_embedding 5
  = Return [mkRequirementHit "REQ-001"
              (Requirement.set_superseded_at req_old (Some sample_now)) (Some 0%Z);
            mkRequirementHit "REQ-002" req_new (Some 0%Z)]
  ∧ search_requirements squared_distance Z.leb store_superseded sample_embedding 0
    = Raise TypeError.
Proof. split; reflexivity. Qed.

(** The scenario of [test_get_implementations_for_requirement]. *)
Example get_implementations_for_requirement_sample :
  get_implementations_for_requirement store_linked "REQ-002" = Return [impl_agents].
Proof. reflexivity. Qed.

Example load_private_sample :
  _load_private no_private
    ("# Private" +:+ String newline ("- REQ-abc: secret" +:+ String newline
       ("  * REQ-def, x" +:+ String newline ("REQ-ghi" +:+ String newline "- foo"))))
  = Return (mkTestSpecStore ∅ {["REQ-abc"; "REQ-def"; "REQ-ghi"]}).
Proof. reflexivity. Qed.

(** Counterexample to C1 as stated: [add_requirement] of the original
    record after [supersede_requirement] takes [superseded_at] back to
    null. *)
Lemma add_requirement_clears_superseded_at :
  (∃ r, get_requirement store_superseded "REQ-001" = Some r
        ∧ Requirement.superseded_at r ≠ None)
  ∧ (∃ r, get_requirement
            (run store_superseded [AddRequirement req_old sample_embedding])
            "REQ-001" = Some r
          ∧ Requirement.superseded_at r = None).
Proof.
  split; eexists; (split; [reflexivity|]); [discriminate | reflexivity].
Qed.

(** Witness of C1 on the sample history. *)
Lemma superseded_at_stays_set_witness :
  forallb (keeps_superseded "REQ-001") sample_history = true
  ∧ (∃ r, get_requirement (run store_superseded sample_history) "REQ-001" = Some r
          ∧ Requirement.superseded_at r ≠ None)
  ∧ (∃ r, get_requirement
            (run (supersede_requirement store_two "REQ-001" sample_now) sample_history)
            "REQ-001" = Some r
          ∧ Requirement.superseded_at r ≠ None).
Proof.
  split; [reflexivity|].
  destruct (superseded_at_stays_set store_superseded "REQ-001" sample_history eq_refl)
    as [Hkept _].
  destruct (superseded_at_stays_set store_two "REQ-001" sample_history eq_refl)
    as [_ Hafter].
  split.
  - apply (Hkept (Requirement.set_superseded_at req_old (Some sample_now)));
      [reflexivity | discriminate].
  - apply (Hafter sample_now req_old); reflexivity.
Defined.


(** Witness of C4: superseding [REQ-001] in the store of two. *)
Lemma supersede_requirement_frame_witness :
  requirements_ok store_two = true
  ∧ dom (requirements (supersede_requirement store_two "REQ-001" sample_now))
    = dom (requirements store_two)
  ∧ implementations (supersede_requirement store_two "REQ-001" sample_now)
    = implementations store_two.
Proof.
  split; [reflexivity|].
  destruct (supersede_requirement_frame store_two "REQ-001" sample_now
              (mkEntry sample_embedding req_old "Old dashboard spec")
              eq_refl eq_refl eq_refl) as (_ & Hdom & _ & Himpl & _).
  split; [exact Hdom | exact Himpl].
Defined.


(** Counterexample to C7 as stated: a trailing full stop stays on the
    identifier, and a bullet followed by two blanks declares nothing. *)
Lemma load_private_differs_from_reading :
  _load_private no_private "- REQ-1." = Return (mkTestSpecStore ∅ {["REQ-1."]})
  ∧ spec_private_ids "- REQ-1." = {["REQ-1"]}
  ∧ _load_private no_private "-  REQ-2" = Return no_private
  ∧ spec_private_ids "-  REQ-2" = {["REQ-2"]}.
Proof. repeat split; reflexivity. Qed.
(** Witness of X5 on the sample specs. *)
Lemma list_specs_public_witness :
  specs_ok specs_sample = true
  ∧ (spec_public ∈ list_specs specs_sample false
     ↔ (∃ req_id, get_spec specs_sample req_id = Some spec_public)
       ∧ is_private specs_sample (TestSpec.req_id spec_public) = false).
Proof.
  split; [reflexivity|].
  apply (list_specs_public specs_sample spec_public). reflexivity.
Defined.

Example is_private_sample :
  is_private specs_sample "REQ-001" = false
  ∧ is_private specs_sample "REQ-002" = true
  ∧ is_private specs_sample "REQ-003" = true
  ∧ is_private specs_sample "REQ-004" = false.
Proof. repeat split; reflexivity. Qed.
End Samples.


(** * Composition of the store operations *)

Section StoreComposition.
Context {Embedding Distance : Type}.
Context (distance : Embedding → Embedding → Distance).
Context (dist_leb : Distance → Distance → bool).

Implicit Types (s : LoomStore Embedding) (req r : Requirement.t)
  (impl : Implementation.t) (req_id impl_id now : string)
  (o : Op Embedding) (ops : list (Op Embedding)).

(** X6: [get_requirement] reads back what [add_requirement] filed under
    the id of the record, every other id answers as before, the other two
    collections are untouched, and a fresh store knows no id. *)
Theorem get_requirement_after_add s req (e : Embedding) :
  get_requirement (add_requirement s req e) (Requirement.id req) = Some req
  ∧ (∀ req_id, req_id ≠ Requirement.id req →
       get_requirement (add_requirement s req e) req_id = get_requirement s req_id)
  ∧ implementations (add_requirement s req e) = implementations s
  ∧ chat_messages (add_requirement s req e) = chat_messages s
  ∧ (∀ req_id, get_requirement (empty_store (Embedding:=Embedding)) req_id = None).
Proof.
  split; [|split; [|split; [|split]]]; try done.
  - rewrite get_requirement_lookup. simpl. unfold Chroma.upsert.
    by rewrite lookup_insert_eq.
  - intros k Hk. rewrite !get_requirement_lookup. simpl. unfold Chroma.upsert.
    by rewrite lookup_insert_ne.
Qed.

(** X7: [add_requirement] is last-write-wins on an id: a second add under
    the same id leaves the store as if only the second had happened,
    embedding and document included. *)
Theorem add_requirement_overwrites s (req1 req2 : Requirement.t) (e1 e2 : Embedding) :
  Requirement.id req1 = Requirement.id req2 →
  add_requirement (add_requirement s req1 e1) req2 e2 = add_requirement s req2 e2.
Proof.
  intros Hid. unfold add_requirement, Chroma.upsert. simpl.
  by rewrite Hid, insert_insert_eq.
Qed.

(** X8: on a well-formed store a second [supersede_requirement] of the
    same id changes nothing: the time of the first call stays. *)
Theorem supersede_requirement_twice s req_id (now1 now2 : string) :
  requirements_ok s = true →
  now1 ≠ "" →
  supersede_requirement (supersede_requirement s req_id now1) req_id now2
  = supersede_requirement s req_id now1.
Proof.
  intros Hok Hnow. rewrite (supersede_requirement_unfold s req_id now1).
  destruct (requirements s !! req_id) as [entry|] eqn:Hlook.
  - destruct (PyStr.truthy (Requirement.superseded_at (metadata entry))) eqn:Htruthy.
    + by rewrite supersede_requirement_unfold, Hlook, Htruthy.
    + destruct (requirements_ok_lookup s req_id entry Hok Hlook) as [Hid _].
      rewrite supersede_requirement_unfold. simpl. unfold Chroma.upsert.
      rewrite Hid, lookup_insert_eq. simpl. by destruct now1.
  - by rewrite supersede_requirement_unfold, Hlook.
Qed.

Lemma supersede_requirement_dom s req_id now :
  requirements_ok s = true →
  dom (requirements (supersede_requirement s req_id now)) = dom (requirements s).
Proof.
  intros Hok. rewrite supersede_requirement_unfold.
  destruct (requirements s !! req_id) as [entry|] eqn:Hlook; [|done].
  destruct (PyStr.truthy _); [done|].
  destruct (requirements_ok_lookup s req_id entry Hok Hlook) as [Hid _].
  simpl. unfold Chroma.upsert. rewrite Hid.
  apply dom_insert_lookup_L. eauto.
Qed.

Lemma supersede_requirement_frames s req_id now :
  implementations (supersede_requirement s req_id now) = implementations s
  ∧ chat_messages (supersede_requirement s req_id now) = chat_messages s.
Proof.
  rewrite supersede_requirement_unfold.
  destruct (requirements s !! req_id) as [entry|]; [|done].
  by destruct (PyStr.truthy _).
Qed.

(** X9: on a well-formed store [supersede_requirement] creates no record:
    [stats] answers as before. *)
Theorem stats_after_supersede s req_id now :
  requirements_ok s = true →
  stats (supersede_requirement s req_id now) = stats s.
Proof.
  intros Hok. unfold stats, Chroma.count.
  destruct (supersede_requirement_frames s req_id now) as [-> ->].
  by rewrite <- (size_dom (requirements (supersede_requirement s req_id now))),
    supersede_requirement_dom, size_dom.
Qed.

(** X10: [add_requirement] raises the count of requirements by one when
    the id is new and leaves it when the id is known; the two other
    counts stay. *)
Theorem stats_after_add_requirement s req (e : Embedding) :
  stats (add_requirement s req e)
  = (match get_requirement s (Requirement.id req) with
     | Some _ => Chroma.count (requirements s)
     | None => S (Chroma.count (requirements s))
     end,
     Chroma.count (implementations s), Chroma.count (chat_messages s)).
Proof.
  unfold stats, Chroma.count. simpl. unfold Chroma.upsert.
  rewrite get_requirement_lookup.
  destruct (requirements s !! Requirement.id req) as [entry|] eqn:Hlook; simpl.
  - by rewrite <- !size_dom, (dom_insert_lookup_L _ (Requirement.id req)) by eauto.
  - by rewrite map_size_insert_None.
Qed.

(** *** Queries *)

Lemma nearest_ids_take {M} (c : gmap string (Entry Embedding M)) q n :
  (λ x, x.1.1) <$> Chroma.nearest distance dist_leb c q n
  = take n ((λ x, x.1.1) <$> Chroma.rank dist_leb
              ((λ ie, (ie.1, ie.2, distance q (embedding ie.2))) <$> map_to_list c)).
Proof. unfold Chroma.nearest. by rewrite fmap_take. Qed.

Lemma nearest_length {M} (c : gmap string (Entry Embedding M)) q n :
  length (Chroma.nearest distance dist_leb c q n) = n `min` size c.
Proof.
  unfold Chroma.nearest.
  by rewrite length_take, rank_perm, length_fmap, length_map_to_list.
Qed.

Lemma nearest_ids_NoDup {M} (c : gmap string (Entry Embedding M)) q n :
  NoDup ((λ x, x.1.1) <$> Chroma.nearest distance dist_leb c q n).
Proof.
  rewrite nearest_ids_take.
  eapply sublist_NoDup; [|apply sublist_take].
  rewrite rank_perm, <- list_fmap_compose.
  apply (NoDup_fst_map_to_list c).
Qed.

Lemma nearest_complete {M} (c : gmap string (Entry Embedding M)) q n i e :
  (size c ≤ n)%nat → c !! i = Some e →
  (i, e, distance q (embedding e)) ∈ Chroma.nearest distance dist_leb c q n.
Proof.
  intros Hn Hlook. unfold Chroma.nearest. rewrite take_ge.
  - rewrite rank_perm. apply list_elem_of_fmap. exists (i, e).
    split; [done|]. by apply elem_of_map_to_list.
  - by rewrite rank_perm, length_fmap, length_map_to_list.
Qed.

(** A collection that holds an entry is asked for at least one result
    when it is asked for as many results as it has entries. *)
Lemma size_le_positive {M} (c : gmap string (Entry Embedding M)) n i e :
  (size c ≤ n)%nat → c !! i = Some e → n ≠ 0.
Proof.
  intros Hn Hlook ->. assert (size c = 0) as Hsize by lia.
  apply map_size_empty_iff in Hsize. by rewrite Hsize, lookup_empty in Hlook.
Qed.

Lemma search_chat_Return s q n :
  n ≠ 0 →
  search_chat distance dist_leb s q n
  = Return ((λ x, mkChatHit x.1.1 (document x.1.2) (metadata x.1.2) (Some x.2))
              <$> Chroma.nearest distance dist_leb (chat_messages s) q n).
Proof. intros Hn. unfold search_chat. by rewrite query_Return. Qed.

(** The ranking is in ascending order of distance as soon as the
    comparison is total. *)
Lemma rank_insert_sorted {M} (x : string * Entry Embedding M * Distance) l :
  (∀ a b, dist_leb a b = false → dist_leb b a = true) →
  Sorted (λ a b, dist_leb a.2 b.2 = true) l →
  Sorted (λ a b, dist_leb a.2 b.2 = true) (Chroma.rank_insert dist_leb x l).
Proof.
  intros Htotal. induction l as [|y l IH]; intros Hsorted; simpl.
  - by repeat constructor.
  - destruct (dist_leb x.2 y.2) eqn:Hxy.
    + constructor; [done|]. by constructor.
    + apply Sorted_inv in Hsorted as [Hl Hhd]. constructor; [by apply IH|].
      destruct l as [|z l]; simpl.
      * constructor. by apply Htotal.
      * destruct (dist_leb x.2 z.2); constructor; [by apply Htotal|].
        by apply HdRel_inv in Hhd.
Qed.

Lemma rank_sorted {M} (l : list (string * Entry Embedding M * Distance)) :
  (∀ a b, dist_leb a b = false → dist_leb b a = true) →
  Sorted (λ a b, dist_leb a.2 b.2 = true) (Chroma.rank dist_leb l).
Proof.
  intros Htotal. induction l as [|x l IH]; simpl; [constructor|].
  by apply rank_insert_sorted.
Qed.

(** X11: asked for a positive number [n] of results, [search_requirements]
    returns [n] results or, when fewer requirements are stored, one per
    stored requirement; no id comes twice; every result carries the
    stored record of its id and the distance of its stored embedding to
    the query. Asked for no result it raises [TypeError]. *)
Theorem search_requirements_hits s (q : Embedding) (n : nat) :
  (n = 0 → search_requirements distance dist_leb s q n = Raise TypeError)
  ∧ (n ≠ 0 →
     ∃ hits,
       search_requirements distance dist_leb s q n = Return hits
       ∧ length hits = n `min` Chroma.count (requirements s)
       ∧ NoDup (hit_id <$> hits)
       ∧ ∀ h, h ∈ hits →
           ∃ entry, requirements s !! hit_id h = Some entry
                    ∧ hit_requirement h = metadata entry
                    ∧ hit_distance h = Some (distance q (embedding entry))).
Proof.
  split; [by intros ->|]. intros Hn.
  eexists. split; [by apply search_requirements_Return|]. split; [|split].
  - by rewrite length_fmap, nearest_length.
  - rewrite <- list_fmap_compose. apply (nearest_ids_NoDup (requirements s)).
  - intros h Hin. apply list_elem_of_fmap in Hin as ([[i e] d] & -> & Hin).
    apply elem_of_nearest in Hin as [Hlook ->]. simpl. eauto.
Qed.

(** X12: [search_requirements] does not look at [superseded_at]: asked
    for at least as many results as there are requirements, it returns
    every stored requirement, superseded or active. *)
Theorem search_requirements_complete s (q : Embedding) (n : nat) req_id
    (entry : Entry Embedding Requirement.t) :
  (Chroma.count (requirements s) ≤ n)%nat →
  requirements s !! req_id = Some entry →
  ∃ hits,
    search_requirements distance dist_leb s q n = Return hits
    ∧ mkRequirementHit req_id (metadata entry) (Some (distance q (embedding entry)))
      ∈ hits.
Proof.
  intros Hn Hlook. eexists. split.
  - apply search_requirements_Return. by apply (size_le_positive _ _ _ _ Hn Hlook).
  - apply list_elem_of_fmap. exists (req_id, entry, distance q (embedding entry)).
    split; [done|]. by apply nearest_complete.
Qed.

(** X13: [search_chat] finds a message just added, with its content, its
    three metadata fields and the distance of its embedding, when asked
    for at least as many results as there are messages. *)
Theorem search_chat_after_add s (msg_id content : string) (e q : Embedding)
    (session role timestamp : string) (n : nat) :
  let s' := add_chat_message s msg_id content e session role timestamp in
  (Chroma.count (chat_messages s') ≤ n)%nat →
  (∃ hits,
     search_chat distance dist_leb s' q n = Return hits
     ∧ mkChatHit msg_id content (ChatMeta.mk session role timestamp)
         (Some (distance q e))
       ∈ hits)
  ∧ requirements s' = requirements s
  ∧ implementations s' = implementations s.
Proof.
  intros s' Hn. split; [|done].
  assert (chat_messages s' !! msg_id
          = Some (mkEntry e (ChatMeta.mk session role timestamp) content)) as Hlook.
  { subst s'. simpl. unfold Chroma.upsert. by rewrite lookup_insert_eq. }
  eexists. split.
  - apply search_chat_Return. by apply (size_le_positive _ _ _ _ Hn Hlook).
  - apply list_elem_of_fmap.
    exists (msg_id, mkEntry e (ChatMeta.mk session role timestamp) content,
            distance q e).
    split; [done|]. by apply (nearest_complete (chat_messages s')).
Qed.

(** *** Histories *)

Lemma step_requirements_frame s o :
  writes_requirements o = false → requirements (step s o) = requirements s.
Proof. by destruct o. Qed.

Lemma step_implementations_frame s o :
  writes_implementations o = false → implementations (step s o) = implementations s.
Proof.
  destruct o as [req e|k now|impl e|? ? ? ? ? ?]; try done. intros _. simpl.
  rewrite supersede_requirement_unfold.
  destruct (requirements s !! k) as [entry|]; [|done].
  by destruct (PyStr.truthy _).
Qed.

Lemma run_requirements_frame ops : ∀ s,
  forallb (λ o, negb (writes_requirements o)) ops = true →
  requirements (run s ops) = requirements s.
Proof.
  induction ops as [|o ops IH]; intros s Hall; [done|].
  simpl in Hall. apply andb_prop in Hall as [Ho Hall]. simpl.
  rewrite (IH _ Hall). apply step_requirements_frame. by destruct (writes_requirements o).
Qed.

Lemma run_implementations_frame ops : ∀ s,
  forallb (λ o, negb (writes_implementations o)) ops = true →
  implementations (run s ops) = implementations s.
Proof.
  induction ops as [|o ops IH]; intros s Hall; [done|].
  simpl in Hall. apply andb_prop in Hall as [Ho Hall]. simpl.
  rewrite (IH _ Hall). apply step_implementations_frame.
  by destruct (writes_implementations o).
Qed.

(** X14: a history that neither adds nor supersedes a requirement leaves
    every requirement read as it was: [get_requirement],
    [list_requirements] and [search_requirements] answer the same. *)
Theorem requirement_reads_unchanged s ops :
  forallb (λ o, negb (writes_requirements o)) ops = true →
  (∀ req_id, get_requirement (run s ops) req_id = get_requirement s req_id)
  ∧ (∀ b, list_requirements (run s ops) b = list_requirements s b)
  ∧ (∀ q n, search_requirements distance dist_leb (run s ops) q n
            = search_requirements distance dist_leb s q n).
Proof.
  intros Hall. pose proof (run_requirements_frame ops s Hall) as Heq.
  unfold get_requirement, list_requirements, search_requirements.
  by rewrite Heq.
Qed.

(** X15: a history without [add_implementation] leaves every
    implementation read as it was; in particular adding or superseding a
    requirement never edits the links of an implementation. *)
Theorem implementation_reads_unchanged s ops :
  forallb (λ o, negb (writes_implementations o)) ops = true →
  (∀ impl_id, get_implementation (run s ops) impl_id = get_implementation s impl_id)
  ∧ (∀ req_id : Unicode.str,
        get_implementations_for_requirement (run s ops) req_id
        = get_implementations_for_requirement s req_id)
  ∧ (∀ q n, search_implementations distance dist_leb (run s ops) q n
            = search_implementations distance dist_leb s q n).
Proof.
  intros Hall. pose proof (run_implementations_frame ops s Hall) as Heq.
  unfold get_implementation, get_implementations_for_requirement,
    search_implementations.
  by rewrite Heq.
Qed.

Lemma step_unknown_requirement s o req_id :
  adds_requirement req_id o = false →
  requirements_ok s = true →
  requirements s !! req_id = None →
  requirements (step s o) !! req_id = None.
Proof.
  intros Hadd Hok Hnone.
  destruct o as [req e|k now|impl e|? ? ? ? ? ?]; simpl; try done.
  - unfold Chroma.upsert. rewrite lookup_insert_ne; [done|].
    simpl in Hadd. intros Heq. rewrite Heq, String.eqb_refl in Hadd. done.
  - rewrite supersede_requirement_unfold.
    destruct (requirements s !! k) as [entry|] eqn:Hlook; [|done].
    destruct (PyStr.truthy _); [done|].
    destruct (requirements_ok_lookup s k entry Hok Hlook) as [Hid _].
    simpl. unfold Chroma.upsert. rewrite Hid, lookup_insert_ne; [done|].
    intros ->. congruence.
Qed.

(** X16: an id no [add_requirement] of the history filed is unknown to
    the store the history builds from an empty one: [get_requirement] and
    [get_current_requirement] return [None] and [supersede_requirement]
    leaves the store as it is. *)
Theorem unknown_requirement ops req_id now :
  forallb (λ o, negb (adds_requirement req_id o)) ops = true →
  let s := run (empty_store (Embedding:=Embedding)) ops in
  get_requirement s req_id = None
  ∧ get_current_requirement s req_id = None
  ∧ supersede_requirement s req_id now = s.
Proof.
  intros Hall s.
  assert (requirements s !! req_id = None) as Hnone.
  { subst s.
    assert (∀ s0, requirements_ok s0 = true → requirements s0 !! req_id = None →
                  requirements (run s0 ops) !! req_id = None) as Hrun.
    { induction ops as [|o ops IH]; intros s0 Hok Hnone; [done|].
      simpl in Hall. apply andb_prop in Hall as [Ho Hall]. simpl.
      apply (IH Hall); [by apply step_ok|].
      apply step_unknown_requirement; [by destruct (adds_requirement req_id o)|done..]. }
    by apply Hrun. }
  rewrite supersede_requirement_unfold. unfold get_current_requirement.
  rewrite get_requirement_lookup, get_one, Hnone. done.
Qed.

(** X17: on a well-formed store, superseding an active requirement takes
    exactly that requirement out of the default listing and keeps the
    full listing at its length. *)
Theorem list_requirements_after_supersede s req_id now
    (entry : Entry Embedding Requirement.t) :
  requirements_ok s = true →
  requirements s !! req_id = Some entry →
  Requirement.superseded_at (metadata entry) = None →
  let s' := supersede_requirement s req_id now in
  (∀ r, r ∈ list_requirements s' false
        ↔ r ∈ list_requirements s false ∧ r ≠ metadata entry)
  ∧ length (list_requirements s' true) = length (list_requirements s true).
Proof.
  intros Hok Hlook Hactive s'.
  destruct (requirements_ok_lookup s req_id entry Hok Hlook) as [Hid Hdoc].
  assert (requirements s'
          = <[req_id := mkEntry (embedding entry)
                          (Requirement.set_superseded_at (metadata entry) (Some now))
                          (Requirement.value (metadata entry))]> (requirements s))
    as Hreqs.
  { subst s'. rewrite supersede_requirement_unfold, Hlook, Hactive. simpl.
    unfold Chroma.upsert. by rewrite Hid. }
  split.
  - intros r. rewrite !list_requirements_active, !list_elem_of_filter.
    rewrite !elem_of_list_requirements_all. split.
    + intros [Hnone (k & Hget)]. apply get_requirement_Some in Hget as (e' & Hk & <-).
      rewrite Hreqs, lookup_insert in Hk. case_decide as Hkey.
      * injection Hk as <-. simpl in Hnone. done.
      * split; [split; [done|]|].
        -- exists k. apply get_requirement_Some. eauto.
        -- intros Heq.
           destruct (requirements_ok_lookup s k e' Hok Hk) as [Hid' _].
           rewrite Heq, Hid in Hid'. done.
    + intros [[Hnone (k & Hget)] Hne]. split; [done|].
      apply get_requirement_Some in Hget as (e' & Hk & <-).
      exists k. apply get_requirement_Some. exists e'. split; [|done].
      rewrite Hreqs, lookup_insert_ne; [done|]. intros <-. congruence.
  - unfold list_requirements, Chroma.get_all. simpl.
    rewrite !length_fmap, !length_map_to_list, Hreqs, <- !size_dom.
    by rewrite (dom_insert_lookup_L _ req_id) by eauto.
Qed.

Lemma supersede_requirement_not_current s req_id now :
  requirements_ok s = true →
  get_current_requirement (supersede_requirement s req_id now) req_id = None.
Proof.
  intros Hok. rewrite supersede_requirement_unfold. unfold get_current_requirement.
  destruct (requirements s !! req_id) as [entry|] eqn:Hlook.
  - destruct (PyStr.truthy (Requirement.superseded_at (metadata entry))) eqn:Htruthy.
    + rewrite get_one, Hlook.
      by destruct (Requirement.superseded_at (metadata entry)).
    + destruct (requirements_ok_lookup s req_id entry Hok Hlook) as [Hid _].
      rewrite get_one. simpl. unfold Chroma.upsert.
      by rewrite Hid, lookup_insert_eq.
  - by rewrite get_one, Hlook.
Qed.

(** X18: on a well-formed store, once [supersede_requirement] has run for
    an id, [get_current_requirement] has no record for it, whether the id
    was active, superseded or absent. *)
Theorem get_current_requirement_after_supersede s req_id now :
  requirements_ok s = true →
  get_current_requirement (supersede_requirement s req_id now) req_id = None
  ∧ (∀ r, get_requirement (supersede_requirement s req_id now) req_id = Some r →
          Requirement.superseded_at r ≠ None).
Proof.
  intros Hok. pose proof (supersede_requirement_not_current s req_id now Hok) as Hcur.
  split; [done|]. intros r Hget Hnone.
  unfold get_current_requirement in Hcur. unfold get_requirement in Hget.
  destruct (Chroma.get _ _) as [|[k entry] rest]; [done|].
  injection Hget as <-. simpl in Hcur. by rewrite Hnone in Hcur.
Qed.

(** X27: the scenario of [test_search_active_excludes_superseded] on any
    well-formed store: after [supersede_requirement] of one id, the
    suggestions of auto-detect, asked for at least as many results as
    there are requirements, hold every other active requirement and hold
    no result with the superseded id. *)
Theorem auto_detect_after_supersede s (old_id new_id now : string)
    (entry : Entry Embedding Requirement.t) (q : Embedding) (n : nat) :
  requirements_ok s = true →
  requirements s !! new_id = Some entry →
  Requirement.superseded_at (metadata entry) = None →
  old_id ≠ new_id →
  (Chroma.count (requirements s) ≤ n)%nat →
  let s' := supersede_requirement s old_id now in
  ∃ active,
    search_requirements_active distance dist_leb s' q n = Return active
    ∧ mkRequirementHit new_id (metadata entry) (Some (distance q (embedding entry)))
      ∈ active
    ∧ ∀ h, h ∈ active → hit_id h ≠ old_id.
Proof.
  intros Hok Hlook Hactive Hne Hn s'.
  assert (requirements s' !! new_id = Some entry) as Hlook'.
  { subst s'. rewrite supersede_requirement_unfold.
    destruct (requirements s !! old_id) as [old|] eqn:Hold; [|done].
    destruct (PyStr.truthy _); [done|].
    destruct (requirements_ok_lookup s old_id old Hok Hold) as [Hid _].
    simpl. unfold Chroma.upsert. by rewrite Hid, lookup_insert_ne. }
  assert (size (requirements s') ≤ n)%nat as Hn'.
  { unfold Chroma.count in Hn. subst s'.
    by rewrite <- size_dom, supersede_requirement_dom, size_dom. }
  eexists. split; [|split].
  - apply search_requirements_active_Return.
    by apply (size_le_positive _ _ _ _ Hn' Hlook').
  - apply list_elem_of_filter. split; [done|].
    apply list_elem_of_fmap. exists (new_id, entry, distance q (embedding entry)).
    split; [done|]. by apply nearest_complete.
  - intros h Hin Hid. apply list_elem_of_filter in Hin as [Hnone Hin].
    apply list_elem_of_fmap in Hin as ([[i e] d] & -> & Hin).
    apply elem_of_nearest in Hin as [Hi _]. simpl in *. subst i.
    pose proof (supersede_requirement_not_current s old_id now Hok) as Hcur.
    fold s' in Hcur. unfold get_current_requirement in Hcur.
    rewrite get_one, Hi in Hcur. simpl in Hcur. by rewrite Hnone in Hcur.
Qed.

(** *** Implementations *)

Lemma search_implementations_loop_spec
    (results : list (string * Entry Embedding ImplMeta.t * Distance)) :
  ∀ hits,
  Forall (λ x, ∃ impl, decode_impl (metadata x.1.2) = Return impl) results →
  ∃ found,
    search_implementations_loop results hits = Return (hits ++ found)%list
    ∧ Forall2 (λ x h, impl_hit_id h = x.1.1
                      ∧ decode_impl (metadata x.1.2) = Return (impl_hit_implementation h)
                      ∧ impl_hit_distance h = Some x.2) results found.
Proof.
  induction results as [|x results IH]; intros hits Hall.
  - exists []. split; [by rewrite app_nil_r | constructor].
  - apply Forall_cons in Hall as [[impl Hdec] Hall].
    cbn [search_implementations_loop]. rewrite Hdec. simpl.
    destruct (IH (hits ++ [mkImplementationHit x.1.1 impl (Some x.2)])%list Hall)
      as (found & -> & Hfound).
    exists (mkImplementationHit x.1.1 impl (Some x.2) :: found).
    split; [by rewrite <- app_assoc|]. by constructor.
Qed.

(** X19: on a store whose [satisfies] texts decode, [search_implementations]
    asked for a positive number [n] of results returns; it gives [n]
    results or one per stored implementation when fewer are stored, and
    each result carries the implementation that [get_implementation]
    returns for its id. Asked for no result it raises [TypeError]. *)
Theorem search_implementations_hits s (q : Embedding) (n : nat) :
  implementations_ok s = true →
  (n = 0 → search_implementations distance dist_leb s q n = Raise TypeError)
  ∧ (n ≠ 0 →
     ∃ hits,
       search_implementations distance dist_leb s q n = Return hits
       ∧ length hits = n `min` Chroma.count (implementations s)
       ∧ ∀ h, h ∈ hits →
           get_implementation s (impl_hit_id h)
           = Return (Some (impl_hit_implementation h))).
Proof.
  intros Hok. split; [by intros ->|]. intros Hn.
  unfold search_implementations. rewrite query_Return by done. simpl.
  destruct (search_implementations_loop_spec
              (Chroma.nearest distance dist_leb (implementations s) q n) [])
    as (found & Heq & Hfound).
  { apply Forall_forall. intros [[i e] d] Hin.
    apply elem_of_nearest in Hin as [Hlook _]. simpl.
    by apply (implementations_ok_lookup s i e). }
  exists found. split; [done|]. split.
  - by rewrite <- (Forall2_length _ _ _ Hfound), nearest_length.
  - intros h Hin. apply list_elem_of_lookup in Hin as [j Hj].
    destruct (Forall2_lookup_r _ _ _ _ _ Hfound Hj) as ([[i e] d] & Hx & Hid & Hdec & _).
    apply list_elem_of_lookup_2 in Hx. apply elem_of_nearest in Hx as [Hlook _].
    simpl in *. rewrite Hid. apply get_implementation_Some. eauto.
Qed.
End StoreComposition.

(** * Identifiers *)

Section HashingFacts.
Context (sha256_hexdigest : string → string).

Lemma slice_to_length (n : nat) (text : string) :
  String.length (slice_to n text) = n `min` String.length text.
Proof.
  revert text. induction n as [|n IH]; intros [|c text]; simpl; try done.
  by rewrite IH.
Qed.

Lemma slice_to_prefix (n : nat) (text : string) :
  String.prefix (slice_to n text) text = true.
Proof.
  revert text. induction n as [|n IH]; intros [|c text]; simpl; try done.
  destruct (ascii_dec c c); [apply IH | done].
Qed.

(** X21: [generate_impl_id] sees only the text [file:lines]: moving a
    colon-separated piece from the end of the file name to the front of
    the line range gives the same id. The id is the first sixteen
    characters of the digest of that text (the whole digest if it is
    shorter). *)
Theorem generate_impl_id_joined (file piece lines : string) :
  generate_impl_id sha256_hexdigest (file +:+ ":" +:+ piece) lines
  = generate_impl_id sha256_hexdigest file (piece +:+ ":" +:+ lines)
  ∧ String.length (generate_impl_id sha256_hexdigest file lines)
    = 16 `min` String.length
                 (generate_content_hash sha256_hexdigest (file +:+ ":" +:+ lines))
  ∧ PyStr.startswith
      (generate_content_hash sha256_hexdigest (file +:+ ":" +:+ lines))
      (generate_impl_id sha256_hexdigest file lines) = true.
Proof.
  unfold generate_impl_id, generate_content_hash, PyStr.startswith.
  split; [|split].
  - by rewrite !string_app_assoc.
  - apply slice_to_length.
  - apply slice_to_prefix.
Qed.
End HashingFacts.

(** * Composition of the test-spec operations *)

Section TestSpecComposition.
Import PyStr TestSpecs.
Implicit Types (st : TestSpecStore) (req_id line content tok : string)
  (ids : gset string) (spec : TestSpec.t).

(** X22: [get_spec] reads back what [add_spec] stored under the spec's
    [req_id], replacing what was there; other ids and the private-id set
    are untouched, and the requirement is then private exactly when the
    annotation file lists it or the new spec is flagged. *)
Theorem get_spec_after_add_spec st spec :
  get_spec (add_spec st spec) (TestSpec.req_id spec) = Some spec
  ∧ (∀ req_id, req_id ≠ TestSpec.req_id spec →
       get_spec (add_spec st spec) req_id = get_spec st req_id)
  ∧ get_private_ids (add_spec st spec) = get_private_ids st
  ∧ (is_private (add_spec st spec) (TestSpec.req_id spec) = true
     ↔ TestSpec.req_id spec ∈ get_private_ids st ∨ TestSpec.private spec = true)
  ∧ (∀ req_id, req_id ≠ TestSpec.req_id spec →
       is_private (add_spec st spec) req_id = is_private st req_id).
Proof.
  unfold get_spec, add_spec, get_private_ids, is_private. simpl.
  split; [by rewrite lookup_insert_eq|].
  split; [by intros k Hk; rewrite lookup_insert_ne|].
  split; [done|]. split.
  - rewrite lookup_insert_eq. case_bool_decide as Hin.
    + split; [by left | done].
    + split; [by right | by intros [? | ?]].
  - intros k Hk. by rewrite lookup_insert_ne.
Qed.

(** X23: [mark_verified] answers [False] and changes nothing for an id
    without a spec; for an id with a spec it answers [True] and that spec
    then has [last_verified] set to the current time and its other fields
    as before. No spec appears or disappears, no spec changes in a field
    other than [last_verified], and the privacy of every requirement is
    as it was. *)
Theorem mark_verified_cases st req_id (now : string) :
  (get_spec st req_id = None → mark_verified st req_id now = (st, false))
  ∧ (∀ spec, get_spec st req_id = Some spec →
       (mark_verified st req_id now).2 = true
       ∧ get_spec (mark_verified st req_id now).1 req_id
         = Some (TestSpec.mk (TestSpec.req_id spec) (TestSpec.description spec)
                   (TestSpec.steps spec) (TestSpec.expected spec)
                   (TestSpec.automated spec) (TestSpec.test_file spec)
                   (Some now) (TestSpec.private spec)))
  ∧ (∀ other spec', get_spec (mark_verified st req_id now).1 other = Some spec' →
       ∃ spec, get_spec st other = Some spec
               ∧ TestSpec.req_id spec' = TestSpec.req_id spec
               ∧ TestSpec.description spec' = TestSpec.description spec
               ∧ TestSpec.steps spec' = TestSpec.steps spec
               ∧ TestSpec.expected spec' = TestSpec.expected spec
               ∧ TestSpec.automated spec' = TestSpec.automated spec
               ∧ TestSpec.test_file spec' = TestSpec.test_file spec
               ∧ TestSpec.private spec' = TestSpec.private spec)
  ∧ (∀ other, is_private (mark_verified st req_id now).1 other = is_private st other)
  ∧ dom (_specs (mark_verified st req_id now).1) = dom (_specs st)
  ∧ get_private_ids (mark_verified st req_id now).1 = get_private_ids st.
Proof.
  unfold mark_verified, get_spec, is_private, get_private_ids.
  destruct (_specs st !! req_id) as [spec|] eqn:Hlook; simpl.
  - split; [done|]. split; [|split; [|split; [|split]]].
    + intros spec' [= <-]. by rewrite lookup_insert_eq.
    + intros other spec'. rewrite lookup_insert. case_decide as Hk.
      * subst other. intros [= <-]. exists spec. by rewrite Hlook.
      * intros Hother. exists spec'. by rewrite Hother.
    + intros other. case_bool_decide; [done|].
      rewrite lookup_insert. case_decide as Hk; [|done]. subst other.
      by rewrite Hlook.
    + apply dom_insert_lookup_L. eauto.
    + done.
  - split; [done|]. split; [done|]. split; [|done].
    intros other spec' Hother. exists spec'. by rewrite Hother.
Qed.

Lemma load_private_specs st content :
  ∃ ids, _load_private st content = Return (mkTestSpecStore (_specs st) ids).
Proof.
  unfold _load_private.
  destruct (load_private_lines_spec (split_on newline content) (_private_ids st))
    as (ids & -> & _).
  by exists ids.
Qed.

(** X24: [_load_private] only adds ids: what was private stays private,
    the specs are untouched, and loading the same text a second time adds
    nothing more. *)
Theorem load_private_again st content :
  ∃ st1, _load_private st content = Return st1
    ∧ _specs st1 = _specs st
    ∧ _private_ids st ⊆ _private_ids st1
    ∧ _load_private st1 content = Return st1.
Proof.
  unfold _load_private.
  destruct (load_private_lines_spec (split_on newline content) (_private_ids st))
    as (ids1 & Hload1 & Hids1).
  destruct (load_private_lines_spec (split_on newline content) ids1)
    as (ids2 & Hload2 & Hids2).
  rewrite Hload1. simpl. eexists. split; [reflexivity|]. simpl.
  split; [done|]. split.
  - intros x Hx. apply Hids1. by left.
  - rewrite Hload2. simpl. f_equal. f_equal. apply set_eq. intros x.
    rewrite Hids2. split; [|by left].
    intros [Hx | Hline]; [done|]. apply Hids1. by right.
Qed.

Lemma split_head_char (c : ascii) (s : string) :
  isspace c = false → ∃ t toks, split (String c s) = String c t :: toks.
Proof.
  intros Hc. cbn [split]. rewrite Hc.
  destruct s as [|d s]; [eauto|].
  destruct (isspace d); [eauto|].
  destruct (split (String d s)); eauto.
Qed.

Lemma split_cons_char (c d : ascii) (s t : string) (toks : list string) :
  isspace c = false → isspace d = false →
  split (String d s) = t :: toks →
  split (String c (String d s)) = String c t :: toks.
Proof.
  intros Hc Hd Hsplit.
  change (split (String c (String d s)))
    with (if isspace c then split (String d s)
          else if isspace d then String c "" :: split (String d s)
               else match split (String d s) with
                    | t :: ts => String c t :: ts
                    | [] => [String c ""]
                    end).
  by rewrite Hc, Hd, Hsplit.
Qed.

(** The first token of a text that starts with [REQ-] starts with it. *)
Lemma split_req (rest : string) :
  ∃ t toks, split ("REQ-" +:+ rest) = ("REQ-" +:+ t) :: toks.
Proof.
  destruct (split_head_char "-" rest eq_refl) as (t & toks & Hsplit).
  exists t, toks. change ("REQ-" +:+ rest) with (String "R" (String "E" (String "Q" (String "-" rest)))).
  change ("REQ-" +:+ t) with (String "R" (String "E" (String "Q" (String "-" t)))).
  do 3 (apply split_cons_char; [done | done |]). exact Hsplit.
Qed.

Lemma rstrip_req (t : string) :
  rstrip ":," ("REQ-" +:+ t) = "REQ-" +:+ rstrip ":," t.
Proof.
  unfold rstrip.
  change ("REQ-" +:+ t) with (String "R" (String "E" (String "Q" (String "-" t)))).
  cbn [rstrip_by]. destruct (is_empty (rstrip_by _ t)); reflexivity.
Qed.

Lemma prefix_app (p s : string) : String.prefix p (p +:+ s) = true.
Proof.
  induction p as [|c p IH]; [by destruct s|].
  rewrite string_app_cons. simpl. destruct (ascii_dec c c); [exact IH | done].
Qed.

Lemma all_chars_app (p : ascii → bool) (s t : string) :
  all_chars p (s +:+ t) = all_chars p s && all_chars p t.
Proof.
  induction s as [|c s IH]; [done|].
  rewrite string_app_cons. simpl. by rewrite IH, andb_assoc.
Qed.

(** What a token that starts with [REQ-] becomes once its trailing colons
    and commas are gone. *)
Lemma private_id_shape (ts : list string) (i : nat) (t x : string) :
  Forall (λ tok, is_empty tok = false
                 ∧ all_chars (λ c, negb (isspace c)) tok = true) ts →
  ts !! i = Some ("REQ-" +:+ t) →
  x = rstrip ":," ("REQ-" +:+ t) →
  startswith x "REQ-" = true
  ∧ all_chars (λ c, negb (isspace c)) x = true
  ∧ ∀ c, last_char x = Some c → c ≠ ":"%char ∧ c ≠ ","%char.
Proof.
  intros Hall Hlook ->. split; [rewrite rstrip_req; apply prefix_app|]. split.
  - rewrite Forall_forall in Hall.
    destruct (Hall _ (list_elem_of_lookup_2 _ _ _ Hlook)) as [_ Hchars].
    destruct (rstrip_by_suffix (λ c, char_in c ":,") ("REQ-" +:+ t))
      as (suffix & Heq & _).
    rewrite Heq, all_chars_app in Hchars.
    by apply andb_prop in Hchars as [? _].
  - intros c Hlast. apply rstrip_by_last in Hlast.
    split; intros ->; done.
Qed.

(** X25: every id [_load_private] adds starts with [REQ-], holds no
    whitespace and does not end in a colon or a comma. *)
Theorem load_private_id_shape st content st1 (x : string) :
  _load_private st content = Return st1 →
  x ∈ _private_ids st1 →
  x ∉ _private_ids st →
  startswith x "REQ-" = true
  ∧ all_chars (λ c, negb (isspace c)) x = true
  ∧ ∀ c, last_char x = Some c → c ≠ ":"%char ∧ c ≠ ","%char.
Proof.
  unfold _load_private. intros Hload Hin Hnew.
  destruct (load_private_lines_spec (split_on newline content) (_private_ids st))
    as (ids1 & Hload1 & Hids1).
  rewrite Hload1 in Hload. simpl in Hload. injection Hload as <-. simpl in Hin.
  apply Hids1 in Hin as [Hold | (raw & tok & _ & Hcase & Hx)]; [done|].
  pose proof (split_tokens (strip raw)) as Hall.
  destruct Hcase as [[Hbullet Htok] | [Hbare Htok]].
  - assert (∃ b rest, strip raw = String b (String " " ("REQ-" +:+ rest))
                      ∧ isspace b = false) as (b & rest & Hline & Hb).
    { destruct Hbullet as [Hp | Hp]; apply prefix_inv in Hp as [rest ->];
        eexists _, rest; (split; [reflexivity | done]). }
    destruct (split_req rest) as (t & toks & Hsplit).
    assert (split (strip raw) = String b "" :: ("REQ-" +:+ t) :: toks) as Htoks.
    { rewrite Hline.
      change (split (String b (String " " ("REQ-" +:+ rest))))
        with (if isspace b then split (String " " ("REQ-" +:+ rest))
              else String b "" :: split ("REQ-" +:+ rest)).
      by rewrite Hb, Hsplit. }
    rewrite Htoks in Htok. injection Htok as <-.
    apply (private_id_shape (split (strip raw)) 1 t x); [done | by rewrite Htoks | done].
  - apply prefix_inv in Hbare as [rest Hline].
    destruct (split_req rest) as (t & toks & Hsplit).
    rewrite Hline, Hsplit in Htok. injection Htok as <-.
    apply (private_id_shape (split (strip raw)) 0 t x);
      [done | by rewrite Hline, Hsplit | done].
Qed.

Lemma foldl_insert_lookup (data : list (string * TestSpec.t)) :
  NoDup data.*1 →
  ∀ k v, foldl (λ specs kv, <[kv.1 := kv.2]> specs) (∅ : gmap string TestSpec.t) data
           !! k = Some v
         ↔ (k, v) ∈ data.
Proof.
  induction data as [|[k0 v0] data IH] using rev_ind; intros Hdup k v.
  - simpl. rewrite lookup_empty. split; [done | by intros ?%elem_of_nil].
  - rewrite fmap_app in Hdup. apply NoDup_app in Hdup as (Hdup & Hfresh & _).
    rewrite foldl_snoc, elem_of_app, list_elem_of_singleton. simpl.
    rewrite lookup_insert. case_decide as Hk.
    + subst k0. split.
      * intros [= <-]. by right.
      * intros [Hin | [= <-]]; [|done]. exfalso.
        apply (Hfresh k); [|by left].
        apply list_elem_of_fmap. by exists (k, v).
    + rewrite (IH Hdup). split; [by left|]. intros [Hin | [= <- <-]]; done.
Qed.

(** X26: building a [TestSpecStore] never fails on the text of
    [PRIVATE.md]; without that file no id is private by annotation,
    without a specs file there is no spec, and the specs of a specs file
    (an object, so with distinct keys) are the ones [get_spec] finds. *)
Theorem init_returns (specs_file : option (list (string * TestSpec.t)))
    (private_file : option string) :
  ∃ st, init specs_file private_file = Return st
    ∧ (private_file = None → _private_ids st = ∅)
    ∧ (specs_file = None → _specs st = ∅)
    ∧ (∀ data, specs_file = Some data → NoDup data.*1 →
         ∀ k v, get_spec st k = Some v ↔ (k, v) ∈ data).
Proof.
  unfold init, _load.
  set (st1 := match specs_file with
              | Some data => _
              | None => mkTestSpecStore ∅ ∅
              end).
  assert (_private_ids st1 = ∅) as Hids by (by destruct specs_file).
  assert (specs_file = None → _specs st1 = ∅) as Hnone by (by intros ->).
  assert (∀ data, specs_file = Some data → NoDup data.*1 →
            ∀ k v, _specs st1 !! k = Some v ↔ (k, v) ∈ data) as Hdata.
  { intros data -> Hdup k v. by apply foldl_insert_lookup. }
  destruct private_file as [content|].
  - destruct (load_private_specs st1 content) as (ids & Hload).
    eexists. split; [exact Hload|]. split; [done|]. done.
  - exists st1. done.
Qed.
End TestSpecComposition.

(** * The further properties on the sample data *)

Section MoreSamples.
Import PyStr TestSpecs.

(** Witness of X28. *)
Lemma reachable_superseded_at_ok_witness :
  forallb timestamps_ok dated_history = true
  ∧ superseded_at_ok (run empty_store dated_history) = true.
Proof.
  split; [reflexivity|].
  destruct (reachable_superseded_at_ok dated_history eq_refl) as [Hok _].
  exact Hok.
Defined.

(** Witness of X7: the superseded record filed over the original. *)
Lemma add_requirement_overwrites_witness :
  Requirement.id req_old
  = Requirement.id (Requirement.set_superseded_at req_old (Some sample_now))
  ∧ add_requirement (add_requirement store_two req_old sample_embedding)
      (Requirement.set_superseded_at req_old (Some sample_now)) [0; 0; 1]%Z
    = add_requirement store_two
        (Requirement.set_superseded_at req_old (Some sample_now)) [0; 0; 1]%Z.
Proof.
  split; [reflexivity|].
  apply (add_requirement_overwrites store_two req_old). reflexivity.
Defined.

(** Witness of X8. *)
Lemma supersede_requirement_twice_witness :
  requirements_ok store_two = true
  ∧ sample_now ≠ ""
  ∧ supersede_requirement (supersede_requirement store_two "REQ-001" sample_now)
      "REQ-001" sample_time
    = supersede_requirement store_two "REQ-001" sample_now.
Proof.
  split; [reflexivity|]. split; [discriminate|].
  apply (supersede_requirement_twice store_two "REQ-001" sample_now sample_time);
    [reflexivity | discriminate].
Defined.

(** Witness of X9. *)
Lemma stats_after_supersede_witness :
  requirements_ok store_linked = true
  ∧ stats (supersede_requirement store_linked "REQ-002" sample_now) = stats store_linked.
Proof.
  split; [reflexivity|].
  apply (stats_after_supersede store_linked "REQ-002" sample_now). reflexivity.
Defined.

(** Witness of X12: the scenario of
    [test_search_currently_includes_superseded]. *)
Lemma search_requirements_complete_witness :
  (Chroma.count (requirements store_superseded) ≤ 5)%nat
  ∧ ∃ hits,
      search_requirements squared_distance Z.leb store_superseded sample_embedding 5
      = Return hits
      ∧ mkRequirementHit "REQ-001"
          (Requirement.set_superseded_at req_old (Some sample_now)) (Some 0%Z)
        ∈ hits.
Proof.
  split; [vm_compute; lia|].
  apply (search_requirements_complete squared_distance Z.leb store_superseded
           sample_embedding 5 "REQ-001"
           (mkEntry sample_embedding
              (Requirement.set_superseded_at req_old (Some sample_now))
              "Old dashboard spec")); [vm_compute; lia | reflexivity].
Defined.

(** Witness of X13. *)
Lemma search_chat_after_add_witness :
  ∃ hits,
    search_chat squared_distance Z.leb
      (add_chat_message store_two "msg-1" "Dashboard shows status" [1; 0; 0]%Z
         "test-session" "user" sample_time)
      sample_embedding 3
    = Return hits
    ∧ mkChatHit "msg-1" "Dashboard shows status"
        (ChatMeta.mk "test-session" "user" sample_time) (Some 2%Z)
      ∈ hits.
Proof.
  apply (search_chat_after_add squared_distance Z.leb store_two "msg-1"
           "Dashboard shows status" [1; 0; 0]%Z sample_embedding
           "test-session" "user" sample_time 3).
  vm_compute; lia.
Defined.

(** Witness of X14. *)
Lemma requirement_reads_unchanged_witness :
  forallb (λ o, negb (writes_requirements o)) chat_history = true
  ∧ list_requirements (run store_superseded chat_history) false
    = list_requirements store_superseded false.
Proof.
  split; [reflexivity|].
  destruct (requirement_reads_unchanged squared_distance Z.leb store_superseded
              chat_history eq_refl) as (_ & Hlist & _).
  apply Hlist.
Defined.

(** Witness of X15. *)
Lemma implementation_reads_unchanged_witness :
  forallb (λ o, negb (writes_implementations o)) requirement_history = true
  ∧ get_implementations_for_requirement (run store_linked requirement_history) "REQ-001"
    = get_implementations_for_requirement store_linked "REQ-001".
Proof.
  split; [reflexivity|].
  destruct (implementation_reads_unchanged squared_distance Z.leb store_linked
              requirement_history eq_refl) as (_ & Hscan & _).
  apply Hscan.
Defined.

(** Witness of X16. *)
Lemma unknown_requirement_witness :
  forallb (λ o, negb (adds_requirement "REQ-404" o)) sample_history = true
  ∧ get_requirement (run empty_store sample_history) "REQ-404" = None.
Proof.
  split; [reflexivity|].
  destruct (unknown_requirement sample_history "REQ-404" sample_now eq_refl)
    as (Hget & _ & _).
  exact Hget.
Defined.

(** Witness of X17: the scenario of
    [test_list_requirements_excludes_superseded_by_default]. *)
Lemma list_requirements_after_supersede_witness :
  requirements_ok store_two = true
  ∧ (req_new ∈ list_requirements (supersede_requirement store_two "REQ-001" sample_now)
                 false
     ↔ req_new ∈ list_requirements store_two false ∧ req_new ≠ req_old)
  ∧ length (list_requirements (supersede_requirement store_two "REQ-001" sample_now) true)
    = length (list_requirements store_two true).
Proof.
  split; [reflexivity|].
  destruct (list_requirements_after_supersede store_two "REQ-001" sample_now
              (mkEntry sample_embedding req_old "Old dashboard spec")
              eq_refl eq_refl eq_refl) as [Hmem Hlen].
  split; [apply (Hmem req_new) | exact Hlen].
Defined.

(** Witness of X18. *)
Lemma get_current_requirement_after_supersede_witness :
  requirements_ok store_two = true
  ∧ get_current_requirement (supersede_requirement store_two "REQ-001" sample_now)
      "REQ-001" = None.
Proof.
  split; [reflexivity|].
  apply (get_current_requirement_after_supersede store_two "REQ-001" sample_now).
  reflexivity.
Defined.

(** Witness of X19. *)
Lemma search_implementations_hits_witness :
  implementations_ok store_linked = true
  ∧ search_implementations squared_distance Z.leb store_linked sample_embedding 0
    = Raise TypeError
  ∧ ∃ hits,
      search_implementations squared_distance Z.leb store_linked sample_embedding 2
      = Return hits
      ∧ length hits = 2 `min` Chroma.count (implementations store_linked)
      ∧ ∀ h, h ∈ hits →
          get_implementation store_linked (impl_hit_id h)
          = Return (Some (impl_hit_implementation h)).
Proof.
  split; [reflexivity|].
  destruct (search_implementations_hits squared_distance Z.leb store_linked
              sample_embedding 0 eq_refl) as [Hzero _].
  destruct (search_implementations_hits squared_distance Z.leb store_linked
              sample_embedding 2 eq_refl) as [_ Hhits].
  split; [by apply Hzero | by apply Hhits].
Defined.

(** Witness of X25. *)
Lemma load_private_id_shape_witness :
  _load_private no_private "- REQ-abc: secret"
  = Return (mkTestSpecStore ∅ {["REQ-abc"]})
  ∧ startswith "REQ-abc" "REQ-" = true
  ∧ all_chars (λ c, negb (isspace c)) "REQ-abc" = true
  ∧ ∀ c, last_char "REQ-abc" = Some c → c ≠ ":"%char ∧ c ≠ ","%char.
Proof.
  split; [reflexivity|].
  apply (load_private_id_shape no_private "- REQ-abc: secret"
           (mkTestSpecStore ∅ {["REQ-abc"]}) "REQ-abc").
  - reflexivity.
  - simpl. set_solver.
  - simpl. set_solver.
Defined.

(** Witness of X27: the two requirements of the test. *)
Lemma auto_detect_after_supersede_witness :
  requirements_ok store_two = true
  ∧ ∃ active,
      search_requirements_active squared_distance Z.leb
        (supersede_requirement store_two "REQ-001" sample_now) sample_embedding 5
      = Return active
      ∧ mkRequirementHit "REQ-002" req_new (Some 0%Z) ∈ active
      ∧ ∀ h, h ∈ active → hit_id h ≠ "REQ-001".
Proof.
  split; [reflexivity|].
  apply (auto_detect_after_supersede squared_distance Z.leb store_two
           "REQ-001" "REQ-002" sample_now
           (mkEntry sample_embedding req_new "New dashboard spec with agents")
           sample_embedding 5);
    [reflexivity | reflexivity | reflexivity | discriminate | vm_compute; lia].
Defined.
End MoreSamples.
